(** * NuVerse session backend: join / create / move / play handlers

    A shallow embedding of the Socket.IO event handlers of the NuVerse
    server (server/index.js) over an explicit model of the relational
    store and of the Socket.IO rooms, followed by the properties of the
    handlers.

    - JavaScript scalars are [JsValue]; plain objects (a request's
      [cardData], a result row of a SELECT, an outgoing card payload) are
      finite maps from property names to [JsValue].
    - The store is a record of tables; every handler threads it explicitly
      and returns the list of events it emitted, in order.
    - Persistence-layer failures (lost connection, constraint violation)
      are outside the model: every statement succeeds, so the [catch]
      branches of the handlers are never taken. *)

From Stdlib Require Import ZArith String Ascii List Bool Lia.
From stdpp Require Import base option list gmap strings pretty sorting.

Local Open Scope string_scope.
Local Open Scope list_scope.
Local Open Scope Z_scope.

(** ** JavaScript values *)

Module Js.

(** Scalar JSON values plus [undefined]; numbers are integers here. *)
Inductive JsValue : Type :=
  | JUndefined
  | JNull
  | JBool (b : bool)
  | JNum (n : Z)
  | JStr (s : string).

#[global] Instance JsValue_eq_dec : EqDecision JsValue.
Proof. solve_decision. Defined.

(** A plain object: own properties by name. *)
Abbreviation JsObj := (gmap string JsValue).

(** [o.k]: a missing property reads as [undefined]. *)
Definition get (o : JsObj) (k : string) : JsValue :=
  default JUndefined (o !! k).

(** ToBoolean. *)
Definition truthy (v : JsValue) : bool :=
  match v with
  | JUndefined | JNull => false
  | JBool b => b
  | JNum n => negb (n =? 0)%Z
  | JStr s => negb (bool_decide (s = EmptyString))
  end.

(** [a || b]. *)
Definition or_else (a b : JsValue) : JsValue :=
  if truthy a then a else b.

(** *** Printing a number

    A [JNum] stands for the double its numeral denotes. Number-to-string
    conversion prints the shortest decimal numeral that reads back as that
    double: as plain digits when it has at most 21 of them, in exponent
    form otherwise. *)

(** The double nearest to a natural number: a 53-bit significand, ties
    to even; [None] when the result overflows to infinity. *)
Definition to_double (x : Z) : option Z :=
  if x <? 2 ^ 53 then Some x
  else
    let e := Z.log2 x - 52 in
    let q := x / 2 ^ e in
    let r := x mod 2 ^ e in
    let half := 2 ^ (e - 1) in
    let q' := if (half <? r) || ((r =? half) && Z.odd q) then q + 1 else q in
    let v := q' * 2 ^ e in
    if 2 ^ 1024 <=? v then None else Some v.

(** Whether the natural number [v] rounds to the double [x], for [x] at
    least 2^53: it lies within half a gap of [x], the ends included when
    the significand of [x] is even. Distances are doubled to stay in the
    integers. *)
Definition reads_as (x v : Z) : bool :=
  let e := Z.log2 x - 52 in
  let m := x / 2 ^ e in
  let up := 2 ^ e in
  let down := if m =? 2 ^ 52 then 2 ^ (e - 1) else 2 ^ e in
  let d := 2 * (v - x) in
  if Z.even m then (- down <=? d) && (d <=? up)
  else (- down <? d) && (d <? up).

(** The numeral with the fewest significant digits that reads as [x]:
    the multiples of 10^q next to [x] are tried for q from the largest
    down; of two that fit the nearer one is taken, the even one on a
    tie. *)
Fixpoint shortest (x : Z) (qs : list Z) : Z :=
  match qs with
  | [] => x
  | q :: qs' =>
      let p := 10 ^ q in
      let a := (x / p) * p in
      let b := a + p in
      match (0 <? a) && reads_as x a, reads_as x b with
      | true, true =>
          if x - a <? b - x then a
          else if b - x <? x - a then b
          else if Z.even (a / p) then a else b
      | true, false => a
      | false, true => b
      | false, false => shortest x qs'
      end
  end.

Fixpoint strip_zeros (s : list ascii) : list ascii :=
  match s with
  | "0"%char :: s' => strip_zeros s'
  | _ => s
  end.

Definition natural_to_string (x : Z) : string :=
  match to_double x with
  | None => "Infinity"
  | Some x =>
      if x <? 2 ^ 53 then pretty x
      else
        let n := String.length (pretty x) in
        let v := shortest x (rev (Z.of_nat <$> seq 0 (S n))) in
        let ds := pretty v in
        let nv := Z.of_nat (String.length ds) in
        if nv <=? 21 then ds
        else
          match rev (strip_zeros (rev (list_ascii_of_string ds))) with
          | [] => ds
          | [d] => String d ("e+" +:+ pretty (nv - 1))
          | d :: rest =>
              String d ("." +:+ string_of_list_ascii rest
                        +:+ "e+" +:+ pretty (nv - 1))
          end
  end.

Definition number_to_string (n : Z) : string :=
  if n <? 0 then "-" +:+ natural_to_string (- n) else natural_to_string n.

(** String conversion inside a template literal. *)
Definition to_string (v : JsValue) : string :=
  match v with
  | JUndefined => "undefined"
  | JNull => "null"
  | JBool true => "true"
  | JBool false => "false"
  | JNum n => number_to_string n
  | JStr s => s
  end.

(** An object literal [{k1: v1, ..., kn: vn}] with pairwise distinct keys. *)
Definition obj (kvs : list (string * JsValue)) : JsObj := list_to_map kvs.

(** [{k1: v1, ..., kn: vn, ...o}]: the spread comes last, so the own
    properties of [o] overwrite the literal ones of the same name. *)
Definition obj_spread (kvs : list (string * JsValue)) (o : JsObj) : JsObj :=
  o ∪ obj kvs.

Definition of_opt_num (o : option Z) : JsValue :=
  match o with Some n => JNum n | None => JNull end.

End Js.
Export Js.

(** ** The relational store *)

Module Store.

(** A table with an AUTO_INCREMENT key: rows in insertion order and the
    next generated id. *)
Record Table (A : Type) : Type := mkTable { rows : list A; next_id : Z }.
Arguments mkTable {A} _ _.
Arguments rows {A} _.
Arguments next_id {A} _.

(** INSERT: the row is built from the generated id, which is returned as
    [insertId]. *)
Definition tbl_insert {A} (mk : Z → A) (t : Table A) : Z * Table A :=
  (next_id t, mkTable (rows t ++ [mk (next_id t)]) (next_id t + 1)).

(** UPDATE ... SET ... WHERE: every matching row is rewritten;
    [affectedRows] is the number of rows the WHERE clause matched (the
    driver connects with the FOUND_ROWS flag). *)
Definition tbl_update {A} (P : A → Prop) `{!∀ x, Decision (P x)}
    (f : A → A) (t : Table A) : nat * Table A :=
  (length (filter P (rows t)),
   mkTable (map (λ r, if decide (P r) then f r else r) (rows t)) (next_id t)).

Record UserRow : Type := mkUser { user_id : Z; username : string }.

Record SessionRow : Type :=
  mkSession { session_id : Z; gm_user_id : Z; session_name : string }.

(** A row of [cards]: the key and the named columns, each with the value
    a SELECT returns for it. What a column type makes of a value of
    another type (a number bound for a text column) is not modelled. *)
Record CardRow : Type := mkCard { card_id : Z; card_fields : JsObj }.

Record PlayerCardRow : Type := mkPlayerCard {
  player_card_id : Z;
  pc_user_id : Z;
  pc_card_id : Z;
  pc_session_id : Z;
  location : string;
  slot_id : option Z;
  is_active : bool
}.

Record LogRow : Type := mkLog {
  log_id : Z;
  log_session_id : Z;
  log_user_id : Z;
  log_card_id : Z;
  action_type : string;
  action_description : string;
  action_timestamp : Z
}.

Record PlayerSessionRow : Type :=
  mkPlayerSession { ps_user_id : Z; ps_session_id : Z }.

(** The whole store. [now] is the store's clock, read by the column
    default of [combat_log.action_timestamp]. *)
Record Db : Type := mkDb {
  users : Table UserRow;
  game_sessions : Table SessionRow;
  cards : Table CardRow;
  player_cards : Table PlayerCardRow;
  combat_log : Table LogRow;
  player_sessions : list PlayerSessionRow;
  now : Z
}.

Definition set_users (t : Table UserRow) (d : Db) : Db :=
  mkDb t (game_sessions d) (cards d) (player_cards d) (combat_log d)
       (player_sessions d) (now d).

Definition set_game_sessions (t : Table SessionRow) (d : Db) : Db :=
  mkDb (users d) t (cards d) (player_cards d) (combat_log d)
       (player_sessions d) (now d).

Definition set_cards (t : Table CardRow) (d : Db) : Db :=
  mkDb (users d) (game_sessions d) t (player_cards d) (combat_log d)
       (player_sessions d) (now d).

Definition set_player_cards (t : Table PlayerCardRow) (d : Db) : Db :=
  mkDb (users d) (game_sessions d) (cards d) t (combat_log d)
       (player_sessions d) (now d).

Definition set_combat_log (t : Table LogRow) (d : Db) : Db :=
  mkDb (users d) (game_sessions d) (cards d) (player_cards d) t
       (player_sessions d) (now d).

Definition set_player_sessions (l : list PlayerSessionRow) (d : Db) : Db :=
  mkDb (users d) (game_sessions d) (cards d) (player_cards d) (combat_log d)
       l (now d).

(** The environment advances the clock between requests. *)
Definition tick (d : Db) : Db :=
  mkDb (users d) (game_sessions d) (cards d) (player_cards d) (combat_log d)
       (player_sessions d) (now d + 1).

Definition empty_db : Db :=
  mkDb (mkTable [] 1) (mkTable [] 1) (mkTable [] 1) (mkTable [] 1)
       (mkTable [] 1) [] 0.

(** A bound parameter as the store keeps it and hands it back: the driver
    writes [undefined] as NULL and a boolean as the literal [true] or
    [false], which the store reads as 1 and 0. *)
Definition bind (v : JsValue) : JsValue :=
  match v with
  | JUndefined => JNull
  | JBool true => JNum 1
  | JBool false => JNum 0
  | _ => v
  end.

(** A boolean column as a SELECT returns it. *)
Definition of_bool (b : bool) : JsValue := JNum (if b then 1 else 0).

(** ORDER BY key ASC, as a stable insertion sort. *)
Fixpoint insert_by {A} (key : A → Z) (x : A) (l : list A) : list A :=
  match l with
  | [] => [x]
  | y :: l' => if (key x <=? key y)%Z then x :: l else y :: insert_by key x l'
  end.

Definition order_by {A} (key : A → Z) (l : list A) : list A :=
  foldr (insert_by key) [] l.

(** SELECT * FROM cards: the row as the driver hands it over. *)
Definition card_obj (c : CardRow) : JsObj :=
  <["card_id" := JNum (card_id c)]> (card_fields c).

(** SELECT * FROM player_cards. *)
Definition player_card_obj (pc : PlayerCardRow) : JsObj :=
  obj [ ("player_card_id", JNum (player_card_id pc));
        ("user_id", JNum (pc_user_id pc));
        ("card_id", JNum (pc_card_id pc));
        ("session_id", JNum (pc_session_id pc));
        ("location", JStr (location pc));
        ("slot_id", of_opt_num (slot_id pc));
        ("is_active", of_bool (is_active pc)) ].

(** One result row of [SELECT pc.*, c.*]: the driver fills one object,
    column after column, so where a column name occurs in both tables
    ([card_id], [is_active]) the value of [c] is the one that stays. *)
Definition joined_obj (pc : PlayerCardRow) (c : CardRow) : JsObj :=
  card_obj c ∪ player_card_obj pc.

(** [FROM player_cards pc JOIN cards c ON pc.card_id = c.card_id WHERE P pc] *)
Definition select_player_cards_join (P : PlayerCardRow → Prop)
    `{!∀ x, Decision (P x)} (d : Db) : list (PlayerCardRow * CardRow) :=
  pc ← filter P (rows (player_cards d));
  c ← filter (λ c, pc_card_id pc = card_id c) (rows (cards d));
  [(pc, c)].

End Store.
Export Store.

(** ** Socket.IO rooms and outgoing events *)

Module Io.

Abbreviation SocketId := nat.

(** Room membership: room id to the connections joined to it. *)
Abbreviation Rooms := (gmap Z (gset SocketId)).

Definition members (room : Z) (rs : Rooms) : gset SocketId :=
  default ∅ (rs !! room).

(** [socket.join(room)] *)
Definition socket_join (sock : SocketId) (room : Z) (rs : Rooms) : Rooms :=
  <[room := {[sock]} ∪ members room rs]> rs.

(** Who an emission is addressed to: [socket.emit], [socket.to(room).emit]
    and [io.to(room).emit]. *)
Inductive Target : Type :=
  | ToSocket (sock : SocketId)
  | ToRoomExcept (room : Z) (sock : SocketId)
  | ToRoom (room : Z).

(** The connections an emission is delivered to. *)
Definition recipients (rs : Rooms) (t : Target) : gset SocketId :=
  match t with
  | ToSocket sock => {[sock]}
  | ToRoomExcept room sock => members room rs ∖ {[sock]}
  | ToRoom room => members room rs
  end.

(** The [server:gameState] object. *)
Record GameState : Type := mkGameState {
  gs_sessionId : Z;
  gs_sessionName : string;
  gs_players : list (string * string);
  gs_allCardDefinitions : list JsObj;
  gs_cards : list JsObj;
  gs_combatLog : list JsObj
}.

Inductive Payload : Type :=
  | PMessage (msg : string)
  | PGameState (gs : GameState)
  | PPlayer (userId : string) (username : string)
  | PCard (card : JsObj).

Record Emit : Type :=
  mkEmit { target : Target; event : string; payload : Payload }.

Record World : Type := mkWorld { db : Db; rooms : Rooms }.

End Io.
Export Io.

(** ** Steps shared by the handlers *)

Module Steps.

(** The double quote of the log descriptions. *)
Definition dquote : string := String (ascii_of_nat 34) EmptyString.

(** [SELECT user_id FROM users WHERE username = ?] *)
Definition select_users (userId : string) (d : Db) : list UserRow :=
  filter (λ u, username u = userId) (rows (users d)).

(** joinGame lines 67-75, createCard lines 176-184: look the username up
    and insert it when no row comes back. *)
Definition resolveUser (userId : string) (d : Db) : Z * Db :=
  match select_users userId d with
  | [] =>
      let '(insertId, t) :=
        tbl_insert (λ i, mkUser i userId) (users d) in
      (insertId, set_users t d)
  | u :: _ => (user_id u, d)
  end.

(** moveCard lines 251-257, playCardAction lines 334-340:
    [users[0]?.user_id], refused when it is falsy (no row, or id 0). *)
Definition lookupUser (userId : string) (d : Db) : option Z :=
  match select_users userId d with
  | [] => None
  | u :: _ => if user_id u =? 0 then None else Some (user_id u)
  end.

(** [SELECT session_id FROM game_sessions WHERE session_name = ?] *)
Definition select_sessions (sessionName : string) (d : Db) : list SessionRow :=
  filter (λ s, session_name s = sessionName) (rows (game_sessions d)).

(** joinGame lines 78-93. *)
Definition resolveSession (sessionName : string) (uid : Z) (d : Db) : Z * Db :=
  match select_sessions sessionName d with
  | [] =>
      let '(insertId, t) :=
        tbl_insert (λ i, mkSession i uid sessionName) (game_sessions d) in
      (insertId, set_game_sessions t d)
  | s :: _ => (session_id s, d)
  end.

(** [INSERT INTO combat_log (session_id, user_id, card_id, action_type,
    action_description)]; the timestamp is the column default. *)
Definition insert_log (sid uid cid : Z) (ty descr : string) (d : Db) : Db :=
  set_combat_log
    (tbl_insert (λ i, mkLog i sid uid cid ty descr (now d)) (combat_log d)).2 d.

(** An object literal whose values are read from one result row:
    [(k, src)] stands for [k: row.src]. *)
Definition pick (sel : list (string * string)) (row : JsObj)
    : list (string * JsValue) :=
  map (λ '(k, src), (k, get row src)) sel.

(** The WHERE clause of the two UPDATE statements. *)
Definition owned_in (playerCardId uid sid : Z) (pc : PlayerCardRow) : Prop :=
  player_card_id pc = playerCardId ∧ pc_user_id pc = uid
  ∧ pc_session_id pc = sid.

#[global] Instance owned_in_dec playerCardId uid sid pc :
  Decision (owned_in playerCardId uid sid pc).
Proof. unfold owned_in. apply _. Defined.

(** [UPDATE player_cards SET location = ?, slot_id = ?, is_active = ?
     WHERE player_card_id = ? AND user_id = ? AND session_id = ?] *)
Definition update_player_card (loc : string) (slot : option Z) (act : bool)
    (playerCardId uid sid : Z) (d : Db) : nat * Db :=
  let '(affectedRows, t) :=
    tbl_update (owned_in playerCardId uid sid)
      (λ pc, mkPlayerCard (player_card_id pc) (pc_user_id pc) (pc_card_id pc)
                          (pc_session_id pc) loc slot act)
      (player_cards d) in
  (affectedRows, set_player_cards t d).

(** Modelled from the spec: the schema of [player_cards] is not part of the
    sources; a column the INSERT of createCard leaves out takes its
    default, and a new instance is inactive. *)
Definition player_cards_is_active_default : bool := false.

(** The columns of the INSERT INTO cards statement, in order. The schema
    of [cards] is not part of the sources: the columns this statement
    writes are taken to be the columns of the table, and so the property
    names of a row that SELECT * returns. *)
Definition card_columns : list string :=
  [ "card_name"; "card_type"; "description"; "is_active"; "power_level";
    "card_hero_type"; "card_hero_class"; "card_hero_role";
    "card_ability_class_melee"; "card_ability_class_longrange";
    "card_ability_class_areaofeffect"; "card_ability_class_duration";
    "card_ability_is_burst"; "card_ability_burst_link_action";
    "card_ability_burst_effect";
    "card_suit_might_modifier"; "card_suit_agility_modifier";
    "card_suit_guts_modifier"; "card_suit_intellect_modifier";
    "card_suit_rally_modifier";
    "card_weapon_damage"; "card_weapon_range"; "card_weapon_effect_slot1";
    "card_weapon_effect_slot2"; "card_weapon_effect_slot3" ].

(** The optional attributes: every column after the common five. *)
Definition optional_columns : list string := drop 5 card_columns.

(** [INSERT INTO cards (columns) VALUES (?, ..., ?)]: each column gets
    its bound value as the store keeps it (see [bind]). *)
Definition insert_card (values : list JsValue) (d : Db) : Z * Db :=
  let '(insertId, t) :=
    tbl_insert
      (λ i, mkCard i (list_to_map (zip card_columns (bind <$> values))))
      (cards d) in
  (insertId, set_cards t d).

(** [INSERT INTO player_cards (user_id, card_id, session_id, location,
    slot_id) VALUES (?, ?, ?, 'CreatedCardStorage', null)] *)
Definition insert_player_card (uid cid sid : Z) (d : Db) : Z * Db :=
  let '(insertId, t) :=
    tbl_insert
      (λ i, mkPlayerCard i uid cid sid "CreatedCardStorage" None
                         player_cards_is_active_default)
      (player_cards d) in
  (insertId, set_player_cards t d).

End Steps.
Export Steps.

(** ** The handlers of the full server (src/unnamed/part_000)

    The file holds the server twice; joinGame and createCard of the second
    copy (lines 481-660) are those of the first. *)

Module Part000.

(** [allCardDefinitions.map(card => ({...}))] *)
Definition catalog_fields : list (string * string) :=
  [ ("card_id", "card_id"); ("card_name", "card_name");
    ("card_type", "card_type"); ("description", "description");
    ("power_level", "power_level") ].

(** [sessionPlayerCards.map(pc => ({...}))], lines 134-148. *)
Definition snapshot_card_fields : list (string * string) :=
  [ ("card_id", "card_id"); ("player_card_id", "player_card_id");
    ("ownerId", "user_id"); ("location", "location");
    ("slot_id", "slot_id"); ("is_active", "is_active");
    ("card_name", "card_name"); ("card_type", "card_type");
    ("description", "description"); ("power_level", "power_level");
    ("card_hero_type", "card_hero_type");
    ("card_hero_class", "card_hero_class");
    ("card_hero_role", "card_hero_role");
    ("card_ability_class_melee", "card_ability_class_melee");
    ("card_ability_class_longrange", "card_ability_class_longrange");
    ("card_ability_class_areaofeffect", "card_ability_class_areaofeffect");
    ("card_ability_class_duration", "card_ability_class_duration");
    ("card_ability_is_burst", "card_ability_is_burst");
    ("card_ability_burst_link_action", "card_ability_burst_link_action");
    ("card_ability_burst_effect", "card_ability_burst_effect");
    ("card_suit_might_modifier", "card_suit_might_modifier");
    ("card_suit_agility_modifier", "card_suit_agility_modifier");
    ("card_suit_guts_modifier", "card_suit_guts_modifier");
    ("card_suit_intellect_modifier", "card_intellect_modifier");
    ("card_suit_rally_modifier", "card_rally_modifier");
    ("card_weapon_damage", "card_weapon_damage");
    ("card_weapon_range", "card_weapon_range");
    ("card_weapon_effect_slot1", "card_weapon_effect_slot1");
    ("card_weapon_effect_slot2", "card_weapon_effect_slot2");
    ("card_weapon_effect_slot3", "card_weapon_effect_slot3") ].

(** [combatLogEntries.map(log => ({...}))] *)
Definition log_obj (l : LogRow) : JsObj :=
  obj [ ("logId", JNum (log_id l)); ("userId", JNum (log_user_id l));
        ("cardId", JNum (log_card_id l)); ("actionType", JStr (action_type l));
        ("actionDescription", JStr (action_description l));
        ("timestamp", JNum (action_timestamp l)) ].

(** Step 5 of joinGame: the player_sessions row, created when absent. *)
Definition ensure_player_session (uid sid : Z) (d : Db) : Db :=
  match filter (λ ps, ps_user_id ps = uid ∧ ps_session_id ps = sid)
               (player_sessions d) with
  | [] => set_player_sessions (player_sessions d ++ [mkPlayerSession uid sid]) d
  | _ :: _ => d
  end.

(** The snapshot assembled in step 4 of joinGame, lines 102-152. *)
Definition gameState (numerical_session_id : Z) (sessionName userId : string)
    (d : Db) : GameState :=
  let allCardDefinitions :=
    take 50%nat (order_by card_id (rows (cards d))) in
  let sessionPlayerCards :=
    select_player_cards_join
      (λ pc, pc_session_id pc = numerical_session_id) d in
  let combatLogEntries :=
    order_by action_timestamp
      (filter (λ l, log_session_id l = numerical_session_id)
              (rows (combat_log d))) in
  mkGameState numerical_session_id sessionName [(userId, "TestUser")]
    ((λ card, obj (pick catalog_fields (card_obj card)))
       <$> allCardDefinitions)
    ((λ '(pc, c), obj (pick snapshot_card_fields (joined_obj pc c)))
       <$> sessionPlayerCards)
    (log_obj <$> combatLogEntries).

(** [socket.on('client:joinGame', ...)] *)
Definition joinGame (sock : SocketId) (sessionName userId : string)
    (w : World) : World * list Emit :=
  let '(uid, d1) := resolveUser userId (db w) in
  let '(numerical_session_id, d2) := resolveSession sessionName uid d1 in
  let rs := socket_join sock numerical_session_id (rooms w) in
  let gs := gameState numerical_session_id sessionName userId d2 in
  let d3 := ensure_player_session uid numerical_session_id d2 in
  (mkWorld d3 rs,
   [ mkEmit (ToSocket sock) "server:gameState" (PGameState gs);
     mkEmit (ToRoomExcept numerical_session_id sock) "server:playerJoined"
            (PPlayer userId "TestUser") ]).

(** The bound values of the INSERT INTO cards statement, lines 196-203. *)
Definition card_values (cardData : JsObj) : list JsValue :=
  [ get cardData "card_name"; get cardData "card_type";
    get cardData "description"; get cardData "is_active";
    get cardData "power_level";
    or_else (get cardData "card_hero_type") JNull;
    or_else (get cardData "card_hero_class") JNull;
    or_else (get cardData "card_hero_role") JNull;
    or_else (get cardData "card_ability_class_melee") JNull;
    or_else (get cardData "card_ability_class_longrange") JNull;
    or_else (get cardData "card_ability_class_areaofeffect") JNull;
    or_else (get cardData "card_ability_class_duration") JNull;
    or_else (get cardData "card_ability_is_burst") JNull;
    or_else (get cardData "card_ability_burst_link_action") JNull;
    or_else (get cardData "card_ability_burst_effect") JNull;
    or_else (get cardData "card_suit_might_modifier") JNull;
    or_else (get cardData "card_suit_agility_modifier") JNull;
    or_else (get cardData "card_suit_guts_modifier") JNull;
    or_else (get cardData "card_intellect_modifier") JNull;
    or_else (get cardData "card_rally_modifier") JNull;
    or_else (get cardData "card_weapon_damage") JNull;
    or_else (get cardData "card_weapon_range") JNull;
    or_else (get cardData "card_weapon_effect_slot1") JNull;
    or_else (get cardData "card_weapon_effect_slot2") JNull;
    or_else (get cardData "card_weapon_effect_slot3") JNull ].

(** [fullNewCard], lines 216-226. *)
Definition fullNewCard (newCardId playerCardId : Z) (userId : string)
    (cardData : JsObj) : JsObj :=
  obj_spread
    [ ("card_id", JNum newCardId); ("player_card_id", JNum playerCardId);
      ("ownerId", JStr userId); ("location", JStr "CreatedCardStorage");
      ("slot_id", JNull); ("is_active", JBool false) ]
    cardData.

(** [socket.on('client:createCard', ...)] *)
Definition createCard (numerical_session_id : Z) (userId : string)
    (cardData : JsObj) (d : Db) : Db * list Emit :=
  let '(uid, d1) := resolveUser userId d in
  let '(newCardId, d2) := insert_card (card_values cardData) d1 in
  let '(playerCardId, d3) :=
    insert_player_card uid newCardId numerical_session_id d2 in
  let d4 :=
    insert_log numerical_session_id uid newCardId "Card Created"
      (userId +:+ " created card " +:+ dquote
         +:+ to_string (get cardData "card_name") +:+ dquote) d3 in
  (d4,
   [ mkEmit (ToRoom numerical_session_id) "server:cardCreated"
            (PCard (fullNewCard newCardId playerCardId userId cardData)) ]).

(** [updatedCardData] of moveCard without [ownerId] and [oldLocation],
    lines 289-306. *)
Definition moved_card_fields : list (string * string) :=
  [ ("card_id", "card_id"); ("player_card_id", "player_card_id");
    ("location", "location"); ("slot_id", "slot_id");
    ("is_active", "is_active");
    ("card_name", "card_name"); ("card_type", "card_type");
    ("description", "description"); ("power_level", "power_level");
    ("card_hero_type", "card_hero_type");
    ("card_hero_class", "card_hero_class");
    ("card_hero_role", "card_hero_role");
    ("card_ability_class_melee", "card_ability_class_melee");
    ("card_ability_class_longrange", "card_ability_class_longrange");
    ("card_ability_class_areaofeffect", "card_ability_class_areaofeffect");
    ("card_ability_class_duration", "card_ability_class_duration");
    ("card_ability_is_burst", "card_ability_is_burst");
    ("card_ability_burst_link_action", "card_ability_burst_link_action");
    ("card_ability_burst_effect", "card_ability_burst_effect");
    ("card_suit_might_modifier", "card_suit_might_modifier");
    ("card_suit_agility_modifier", "card_suit_agility_modifier");
    ("card_suit_guts_modifier", "card_guts_modifier");
    ("card_suit_intellect_modifier", "card_intellect_modifier");
    ("card_suit_rally_modifier", "card_rally_modifier");
    ("card_weapon_damage", "card_weapon_damage");
    ("card_weapon_range", "card_weapon_range");
    ("card_weapon_effect_slot1", "card_weapon_effect_slot1");
    ("card_weapon_effect_slot2", "card_weapon_effect_slot2");
    ("card_weapon_effect_slot3", "card_weapon_effect_slot3") ].

(** [playedCardData] of playCardAction without [ownerId] and
    [oldLocation], lines 372-388. *)
Definition played_card_fields : list (string * string) :=
  [ ("card_id", "card_id"); ("player_card_id", "player_card_id");
    ("location", "location"); ("slot_id", "slot_id");
    ("is_active", "is_active");
    ("card_name", "card_name"); ("card_type", "card_type");
    ("description", "description"); ("power_level", "power_level");
    ("card_hero_type", "card_hero_type");
    ("card_hero_class", "card_hero_class");
    ("card_hero_role", "card_hero_role");
    ("card_ability_class_melee", "card_ability_class_melee");
    ("card_ability_class_longrange", "card_ability_class_longrange");
    ("card_ability_class_areaofeffect", "card_ability_class_areaofeffect");
    ("card_ability_class_duration", "card_ability_class_duration");
    ("card_ability_is_burst", "card_ability_is_burst");
    ("card_ability_burst_link_action", "card_ability_burst_link_action");
    ("card_ability_burst_effect", "card_ability_burst_effect");
    ("card_suit_might_modifier", "card_suit_might_modifier");
    ("card_suit_agility_modifier", "card_agility_modifier");
    ("card_suit_guts_modifier", "card_guts_modifier");
    ("card_suit_intellect_modifier", "card_intellect_modifier");
    ("card_suit_rally_modifier", "card_rally_modifier");
    ("card_weapon_damage", "card_weapon_damage");
    ("card_weapon_range", "card_weapon_range");
    ("card_weapon_effect_slot1", "card_weapon_effect_slot1");
    ("card_weapon_effect_slot2", "card_weapon_effect_slot2");
    ("card_weapon_effect_slot3", "card_weapon_effect_slot3") ].

(** [socket.emit('error', msg)] *)
Definition emit_error (sock : SocketId) (msg : string) : Emit :=
  mkEmit (ToSocket sock) "error" (PMessage msg).

(** Steps 3 to 5 shared in shape by moveCard and playCardAction: refetch
    the instance with its definition, build the payload, log, broadcast.
    [fields], [missing], [action], [verb], [dest] and [ev] are what the
    two handlers differ in. *)
Definition refetch_log_broadcast (sock : SocketId) (sessionId uid : Z)
    (userId : string) (playerCardId : Z) (oldLocation : string)
    (fields : list (string * string))
    (missing action verb dest ev : string) (d : Db) : Db * list Emit :=
  match select_player_cards_join (λ pc, player_card_id pc = playerCardId) d with
  | [] => (d, [emit_error sock missing])
  | (pc, c) :: _ =>
      let row := joined_obj pc c in
      let cardData :=
        obj (pick fields row
             ++ [("ownerId", JStr userId); ("oldLocation", JStr oldLocation)]) in
      let d' :=
        insert_log sessionId uid (card_id c) action
          (userId +:+ verb +:+ dquote +:+ to_string (get cardData "card_name")
             +:+ dquote +:+ " from " +:+ oldLocation +:+ " to " +:+ dest) d in
      (d', [mkEmit (ToRoom sessionId) ev (PCard cardData)])
  end.

(** [socket.on('client:moveCard', ...)] *)
Definition moveCard (sock : SocketId) (sessionId : Z) (userId : string)
    (playerCardId : Z) (oldLocation destinationLocation : string)
    (destinationSlotId : option Z) (isActive : bool) (d : Db)
    : Db * list Emit :=
  match lookupUser userId d with
  | None => (d, [emit_error sock "User not authenticated for card move."])
  | Some uid =>
      let '(affectedRows, d1) :=
        update_player_card destinationLocation destinationSlotId isActive
                           playerCardId uid sessionId d in
      match affectedRows with
      | O =>
          (d1, [emit_error sock
                  "Failed to move card (card not found or permission denied)."])
      | S _ =>
          refetch_log_broadcast sock sessionId uid userId playerCardId
            oldLocation moved_card_fields
            "Failed to retrieve moved card data." "Card Moved"
            " moved card " destinationLocation "server:cardMoved" d1
      end
  end.

(** [socket.on('client:playCardAction', ...)] *)
Definition playCardAction (sock : SocketId) (sessionId : Z) (userId : string)
    (playerCardId : Z) (oldLocation : string) (d : Db) : Db * list Emit :=
  match lookupUser userId d with
  | None => (d, [emit_error sock "User not authenticated for playing card."])
  | Some uid =>
      let '(affectedRows, d1) :=
        update_player_card "DiscardPile" None false
                           playerCardId uid sessionId d in
      match affectedRows with
      | O =>
          (d1, [emit_error sock
                  "Failed to play card (card not found or permission denied)."])
      | S _ =>
          refetch_log_broadcast sock sessionId uid userId playerCardId
            oldLocation played_card_fields
            "Failed to retrieve played card data." "Card Played"
            " played card " "DiscardPile" "server:cardPlayed" d1
      end
  end.

End Part000.

(** ** The createCard handler of src/server/index.js *)

Module ServerIndex.

(** The bound values of the INSERT INTO cards statement, lines 39-50. *)
Definition card_values (cardData : JsObj) : list JsValue :=
  [ get cardData "card_name"; get cardData "card_type";
    get cardData "description"; get cardData "is_active";
    get cardData "power_level";
    or_else (get cardData "card_hero_type") JNull;
    or_else (get cardData "card_hero_class") JNull;
    or_else (get cardData "card_hero_role") JNull;
    or_else (get cardData "card_ability_class_melee") JNull;
    or_else (get cardData "card_ability_class_longrange") JNull;
    or_else (get cardData "card_ability_class_areaofeffect") JNull;
    or_else (get cardData "card_ability_class_duration") JNull;
    or_else (get cardData "card_ability_is_burst") JNull;
    or_else (get cardData "card_ability_burst_link_action") JNull;
    or_else (get cardData "card_ability_burst_effect") JNull;
    or_else (get cardData "card_suit_might_modifier") JNull;
    or_else (get cardData "card_suit_agility_modifier") JNull;
    or_else (get cardData "card_suit_guts_modifier") JNull;
    or_else (get cardData "card_suit_intellect_modifier") JNull;
    or_else (get cardData "card_suit_rally_modifier") JNull;
    or_else (get cardData "card_weapon_damage") JNull;
    or_else (get cardData "card_weapon_range") JNull;
    or_else (get cardData "card_weapon_effect_slot1") JNull;
    or_else (get cardData "card_weapon_effect_slot2") JNull;
    or_else (get cardData "card_weapon_effect_slot3") JNull ].

(** [fullNewCard], lines 63-69. *)
Definition fullNewCard (newCardId : Z) (userId : string) (cardData : JsObj)
    : JsObj :=
  obj_spread
    [ ("card_id", JNum newCardId); ("ownerId", JStr userId);
      ("location", JStr "CreatedCardStorage"); ("slot_id", JNull) ]
    cardData.

(** [socket.on('client:createCard', ...)] *)
Definition createCard (sessionId : Z) (userId : string) (cardData : JsObj)
    (d : Db) : Db * list Emit :=
  let '(uid, d1) := resolveUser userId d in
  let '(newCardId, d2) := insert_card (card_values cardData) d1 in
  let '(_, d3) := insert_player_card uid newCardId sessionId d2 in
  let d4 :=
    insert_log sessionId uid newCardId "Card Created"
      (userId +:+ " created card " +:+ dquote
         +:+ to_string (get cardData "card_name") +:+ dquote) d3 in
  (d4,
   [ mkEmit (ToRoom sessionId) "server:cardCreated"
            (PCard (fullNewCard newCardId userId cardData)) ]).

End ServerIndex.

(** ** Concrete stores used by the examples *)

Module Scenario.

(** alice (id 1) and bob (id 2) in session 1; alice owns instance 1 of
    card 1, a suit card whose intellect modifier is 2 and rally modifier
    is 5. *)
Definition suit_card : CardRow :=
  mkCard 1
    (list_to_map
       (zip card_columns
          [ JStr "Sage Robe"; JStr "Suit"; JStr "robe"; JNum 1; JNum 3;
            JNull; JNull; JNull; JNull; JNull; JNull; JNull; JNull; JNull;
            JNull; JNum 1; JNum 1; JNum 1; JNum 2; JNum 5;
            JNull; JNull; JNull; JNull; JNull ])).

Definition table_db : Db :=
  mkDb (mkTable [mkUser 1 "alice"; mkUser 2 "bob"] 3)
       (mkTable [mkSession 1 1 "arena1"] 2)
       (mkTable [suit_card] 2)
       (mkTable [mkPlayerCard 1 1 1 1 "battlefield" (Some 3) true] 2)
       (mkTable [] 1)
       [mkPlayerSession 1 1; mkPlayerSession 2 1]
       10.

Definition table_world : World :=
  mkWorld table_db {[ 1 := {[ 7%nat; 8%nat ]} ]}.

(** A request body for createCard: the common five with the active flag
    set, a zero and an empty string among the optional attributes, and the
    suit intellect modifier under the name of its column. *)
Definition fire_bolt : JsObj :=
  obj [ ("card_name", JStr "Fire Bolt"); ("card_type", JStr "Suit");
        ("description", JStr "burns"); ("is_active", JBool true);
        ("power_level", JNum 3);
        ("card_hero_role", JStr EmptyString);
        ("card_weapon_damage", JNum 0);
        ("card_suit_might_modifier", JNum 1);
        ("card_suit_intellect_modifier", JNum 4) ].

End Scenario.

(** ** The event router *)

Module Router.

(** The named messages of [io.on('connection', ...)], with their payloads. *)
Inductive Request : Type :=
  | JoinGame (sessionName userId : string)
  | CreateCard (sessionId : Z) (userId : string) (cardData : JsObj)
  | MoveCard (sessionId : Z) (userId : string) (playerCardId : Z)
             (oldLocation destinationLocation : string)
             (destinationSlotId : option Z) (isActive : bool)
  | PlayCardAction (sessionId : Z) (userId : string) (playerCardId : Z)
                   (oldLocation : string)
  | Disconnect.

(** A handler that only touches the store. *)
Definition on_db (f : Db → Db * list Emit) (w : World) : World * list Emit :=
  (mkWorld (f (db w)).1 (rooms w), (f (db w)).2).

(** What the transport does with a closed connection: it leaves every
    room. *)
Definition leave_all (sock : SocketId) (rs : Rooms) : Rooms :=
  (λ m, m ∖ {[sock]}) <$> rs.

(** [socket.on(name, handler)]: one message of connection [sock]. The
    [disconnect] handler only writes to the console. *)
Definition handle (sock : SocketId) (req : Request) (w : World)
    : World * list Emit :=
  match req with
  | JoinGame sessionName userId => Part000.joinGame sock sessionName userId w
  | CreateCard sessionId userId cardData =>
      on_db (Part000.createCard sessionId userId cardData) w
  | MoveCard sessionId userId playerCardId oldLocation destinationLocation
             destinationSlotId isActive =>
      on_db (Part000.moveCard sock sessionId userId playerCardId oldLocation
               destinationLocation destinationSlotId isActive) w
  | PlayCardAction sessionId userId playerCardId oldLocation =>
      on_db (Part000.playCardAction sock sessionId userId playerCardId
               oldLocation) w
  | Disconnect => (mkWorld (db w) (leave_all sock (rooms w)), [])
  end.

(** What happens to the server: a message arrives on a connection, or the
    clock of the store moves on. *)
Inductive Step : Type :=
  | Message (sock : SocketId) (req : Request)
  | Tick.

Definition step (s : Step) (w : World) : World * list Emit :=
  match s with
  | Message sock req => handle sock req w
  | Tick => (mkWorld (tick (db w)) (rooms w), [])
  end.

(** Messages are handled one after the other; the emissions are collected
    in order. *)
Fixpoint run (steps : list Step) (w : World) : World * list Emit :=
  match steps with
  | [] => (w, [])
  | s :: rest =>
      let r1 := step s w in
      let r2 := run rest r1.1 in
      (r2.1, r1.2 ++ r2.2)
  end.

Definition empty_world : World := mkWorld empty_db ∅.

End Router.
Export Router.

(** ** Consistency of the store *)

Module Invariant.

(** The rows of a table have pairwise distinct keys, all of them below the
    next generated id. *)
Definition keys_fresh {A} (key : A → Z) (t : Table A) : Prop :=
  NoDup (key <$> rows t) ∧ Forall (λ r, key r < next_id t) (rows t).

(** Every row of [cards] has the columns of the INSERT statement. *)
Definition cards_schema (d : Db) : Prop :=
  Forall (λ c, dom (card_fields c) = list_to_set card_columns) (rows (cards d)).

(** Every instance refers to a stored card definition. *)
Definition cards_present (d : Db) : Prop :=
  Forall (λ pc, Exists (λ c, card_id c = pc_card_id pc) (rows (cards d)))
         (rows (player_cards d)).

(** The combat log is in the order of its timestamps, none of them ahead
    of the clock. *)
Definition log_chronological (d : Db) : Prop :=
  StronglySorted (λ a b, action_timestamp a ≤ action_timestamp b)
                 (rows (combat_log d))
  ∧ Forall (λ l, action_timestamp l ≤ now d) (rows (combat_log d)).

(** User ids are positive, as AUTO_INCREMENT hands them out. *)
Definition users_positive (d : Db) : Prop :=
  0 < next_id (users d) ∧ Forall (λ u, 0 < user_id u) (rows (users d)).

Record db_ok (d : Db) : Prop := mk_db_ok {
  ok_users : keys_fresh user_id (users d);
  ok_positive : users_positive d;
  ok_game_sessions : keys_fresh session_id (game_sessions d);
  ok_cards : keys_fresh card_id (cards d);
  ok_player_cards : keys_fresh player_card_id (player_cards d);
  ok_combat_log : keys_fresh log_id (combat_log d);
  ok_schema : cards_schema d;
  ok_present : cards_present d;
  ok_chronological : log_chronological d
}.

(** The identity columns of an instance: the UPDATE statements never
    assign them. *)
Definition identity (pc : PlayerCardRow) : Z * Z * Z * Z :=
  (player_card_id pc, pc_user_id pc, pc_card_id pc, pc_session_id pc).

End Invariant.
Export Invariant.

(** ** Concrete runs used by the examples *)

Module Replay.

(** alice opens "arena1" and creates a card, bob joins, alice moves the
    card to the battlefield. *)
Definition played_world : World :=
  (run [ Message 7%nat (JoinGame "arena1" "alice");
         Message 7%nat (CreateCard 1 "alice" Scenario.fire_bolt);
         Tick;
         Message 8%nat (JoinGame "arena1" "bob");
         Message 7%nat (MoveCard 1 "alice" 1 "CreatedCardStorage"
                                 "battlefield" (Some 3) true) ]
       empty_world).1.

(** The store of [Scenario.table_db] without its card definitions:
    alice's instance refers to a card that is not stored. *)
Definition orphan_db : Db := set_cards (mkTable [] 2) Scenario.table_db.

(** [Scenario.table_db] with a second session, "arena2", opened by bob. *)
Definition two_sessions_db : Db :=
  set_game_sessions
    (mkTable [mkSession 1 1 "arena1"; mkSession 2 2 "arena2"] 3)
    Scenario.table_db.

(** A request body for createCard with the common five fields only. *)
Definition plain_card : JsObj :=
  obj [ ("card_name", JStr "Shield Wall"); ("card_type", JStr "Ability");
        ("description", JStr "blocks"); ("is_active", JBool true);
        ("power_level", JNum 2) ].

End Replay.

(** * Properties *)

(** ** Printing numbers *)

Section number_printing.

(** Integers up to 2^53 print as their digits; beyond that the shortest
    numeral that reads back as the same double is printed, in exponent
    form from 21 digits on. *)
Lemma to_string_numbers :
  to_string (JNum 0) = "0"
  ∧ to_string (JNum (-7)) = "-7"
  ∧ to_string (JNum 9007199254740991) = "9007199254740991"
  ∧ to_string (JNum (2 ^ 60)) = "1152921504606847000"
  ∧ to_string (JNum (2 ^ 64)) = "18446744073709552000"
  ∧ to_string (JNum (10 ^ 20)) = "100000000000000000000"
  ∧ to_string (JNum (10 ^ 21)) = "1e+21"
  ∧ to_string (JNum (- 10 ^ 21)) = "-1e+21"
  ∧ to_string (JNum (2 ^ 70)) = "1.1805916207174113e+21"
  ∧ to_string (JNum (10 ^ 23)) = "1e+23"
  ∧ to_string (JNum 123456789012345678901234567890)
    = "1.2345678901234568e+29".
Proof. repeat split; by vm_compute. Qed.

Lemma to_string_small n :
  0 ≤ n < 2 ^ 53 → to_string (JNum n) = pretty n.
Proof.
  intros [Hlo Hhi]. cbn [to_string]. unfold number_to_string.
  destruct (Z.ltb_spec n 0); [lia|].
  assert ((n <? 2 ^ 53) = true) as Hsmall by (apply Z.ltb_lt; lia).
  unfold natural_to_string, to_double.
  rewrite Hsmall. cbv beta iota. by rewrite Hsmall.
Qed.

End number_printing.

(** ** The store *)

Section store_facts.

Lemma set_users_same d : set_users (users d) d = d.
Proof. by destruct d. Qed.

Lemma set_player_cards_same d : set_player_cards (player_cards d) d = d.
Proof. by destruct d. Qed.

Lemma update_rows_nomatch {A} (P : A → Prop) `{!∀ x, Decision (P x)}
    (f : A → A) (l : list A) :
  filter P l = [] → map (λ r, if decide (P r) then f r else r) l = l.
Proof.
  induction l as [|x l IH]; [done|].
  rewrite filter_cons. cbn [map].
  destruct (decide (P x)); [done|].
  intros Hl. by rewrite IH.
Qed.

Lemma tbl_update_nomatch {A} (P : A → Prop) `{!∀ x, Decision (P x)}
    (f : A → A) (t : Table A) :
  filter P (rows t) = [] → tbl_update P f t = (0%nat, t).
Proof.
  intros Hl. unfold tbl_update.
  rewrite update_rows_nomatch by done. rewrite Hl. by destruct t.
Qed.

Lemma update_player_card_nomatch loc slot act playerCardId uid sid d :
  filter (owned_in playerCardId uid sid) (rows (player_cards d)) = [] →
  update_player_card loc slot act playerCardId uid sid d = (0%nat, d).
Proof.
  intros Hl. unfold update_player_card.
  rewrite tbl_update_nomatch by done. by rewrite set_player_cards_same.
Qed.

Lemma update_player_card_rows loc slot act playerCardId uid sid d :
  rows (player_cards (update_player_card loc slot act playerCardId uid sid d).2)
  = map (λ pc, if decide (owned_in playerCardId uid sid pc)
               then mkPlayerCard (player_card_id pc) (pc_user_id pc)
                                 (pc_card_id pc) (pc_session_id pc)
                                 loc slot act
               else pc)
        (rows (player_cards d)).
Proof. reflexivity. Qed.

Lemma update_player_card_count loc slot act playerCardId uid sid d :
  (update_player_card loc slot act playerCardId uid sid d).1
  = length (filter (owned_in playerCardId uid sid) (rows (player_cards d))).
Proof. reflexivity. Qed.

End store_facts.

(** ** Moving and playing a card *)

Section move_play.

Import Part000.

Lemma refetch_log_broadcast_player_cards sock sessionId uid userId
    playerCardId oldLocation fields missing action verb dest ev d :
  player_cards
    (refetch_log_broadcast sock sessionId uid userId playerCardId oldLocation
       fields missing action verb dest ev d).1
  = player_cards d.
Proof.
  unfold refetch_log_broadcast.
  destruct (select_player_cards_join _ d) as [|[pc c] l]; reflexivity.
Qed.

(** C1. A move-card request whose (instance id, resolved user id, session
    id) triple matches no row of player_cards -- the instance belongs to
    another user or to another session, or does not exist -- and likewise a
    request whose username resolves to no user, is answered with exactly
    one emission, an [error] event addressed to the calling connection;
    the store it leaves is the store it found, and nothing is emitted to
    the room. *)
Theorem moveCard_no_match_rejected sock sessionId userId playerCardId
    oldLocation destinationLocation destinationSlotId isActive d :
  match lookupUser userId d with
  | Some uid =>
      filter (owned_in playerCardId uid sessionId) (rows (player_cards d)) = []
  | None => True
  end →
  ∃ msg,
    moveCard sock sessionId userId playerCardId oldLocation
             destinationLocation destinationSlotId isActive d
    = (d, [mkEmit (ToSocket sock) "error" (PMessage msg)]).
Proof.
  intros Hno. unfold moveCard.
  destruct (lookupUser userId d) as [uid|]; [|by eexists].
  rewrite update_player_card_nomatch by done. by eexists.
Qed.

Lemma moveCard_no_match_rejected_bob :
  ∃ msg,
    moveCard 8%nat 1 "bob" 1 "battlefield" "hand" None false Scenario.table_db
    = (Scenario.table_db, [mkEmit (ToSocket 8%nat) "error" (PMessage msg)]).
Proof.
  apply (moveCard_no_match_rejected 8%nat 1 "bob" 1 "battlefield" "hand"
           None false Scenario.table_db).
  vm_compute. reflexivity.
Defined.

(** The instance as playCardAction leaves it. *)
Lemma playCardAction_player_cards sock sessionId userId playerCardId
    oldLocation d uid :
  lookupUser userId d = Some uid →
  rows (player_cards
          (playCardAction sock sessionId userId playerCardId oldLocation d).1)
  = map (λ pc, if decide (owned_in playerCardId uid sessionId pc)
               then mkPlayerCard (player_card_id pc) (pc_user_id pc)
                                 (pc_card_id pc) (pc_session_id pc)
                                 "DiscardPile" None false
               else pc)
        (rows (player_cards d)).
Proof.
  intros Hu. unfold playCardAction. rewrite Hu.
  rewrite <- update_player_card_rows.
  destruct (update_player_card _ _ _ _ _ _ d) as [[|n] d1]; [done|].
  by rewrite refetch_log_broadcast_player_cards.
Qed.

(** C2. When the username resolves to [uid] and the store holds an
    instance [pc] with the requested id, owned by [uid] in the supplied
    session, then after playCardAction that instance is stored with its
    identity unchanged, location "DiscardPile", no slot and inactive,
    whatever its location, slot and active flag were; no row of that
    identity is left in any other state; and the request is not refused
    with the permission error. *)
Theorem playCardAction_forces_discard sock sessionId userId playerCardId
    oldLocation d uid pc :
  lookupUser userId d = Some uid →
  pc ∈ rows (player_cards d) →
  owned_in playerCardId uid sessionId pc →
  let r := playCardAction sock sessionId userId playerCardId oldLocation d in
  mkPlayerCard playerCardId uid (pc_card_id pc) sessionId
               "DiscardPile" None false
    ∈ rows (player_cards r.1)
  ∧ (∀ pc', pc' ∈ rows (player_cards r.1) →
            owned_in playerCardId uid sessionId pc' →
            location pc' = "DiscardPile" ∧ slot_id pc' = None
            ∧ is_active pc' = false)
  ∧ r.2 ≠ [emit_error sock
             "Failed to play card (card not found or permission denied)."].
Proof.
  intros Hu Hin Hown r. subst r.
  rewrite (playCardAction_player_cards _ _ _ _ _ _ uid) by done.
  split; [|split].
  - apply list_elem_of_fmap. exists pc. split; [|done].
    rewrite decide_True by done.
    destruct Hown as (<- & <- & <-). done.
  - intros pc' [r [-> Hr]]%list_elem_of_fmap Hown'.
    destruct (decide (owned_in playerCardId uid sessionId r)); [done|].
    contradiction.
  - unfold playCardAction. rewrite Hu.
    pose proof (update_player_card_count "DiscardPile" None false
                  playerCardId uid sessionId d) as Hn.
    destruct (update_player_card _ _ _ _ _ _ d) as [n d1]. cbn in Hn.
    assert (pc ∈ filter (owned_in playerCardId uid sessionId)
                        (rows (player_cards d))) as Hf
      by (by apply list_elem_of_filter).
    destruct n as [|n].
    { destruct (filter _ _); [by apply elem_of_nil in Hf | done]. }
    unfold refetch_log_broadcast.
    destruct (select_player_cards_join _ d1) as [|[pc1 c1] l]; cbn.
    + intros [=].
    + intros [=].
Qed.

Lemma playCardAction_forces_discard_alice :
  let r := playCardAction 7%nat 1 "alice" 1 "battlefield" Scenario.table_db in
  mkPlayerCard 1 1 1 1 "DiscardPile" None false ∈ rows (player_cards r.1)
  ∧ (∀ pc', pc' ∈ rows (player_cards r.1) → owned_in 1 1 1 pc' →
            location pc' = "DiscardPile" ∧ slot_id pc' = None
            ∧ is_active pc' = false)
  ∧ r.2 ≠ [emit_error 7%nat
             "Failed to play card (card not found or permission denied)."].
Proof.
  apply (playCardAction_forces_discard 7%nat 1 "alice" 1 "battlefield"
           Scenario.table_db 1
           (mkPlayerCard 1 1 1 1 "battlefield" (Some 3) true)).
  - vm_compute. reflexivity.
  - vm_compute. apply list_elem_of_here.
  - vm_compute. auto.
Defined.

End move_play.

(** ** Resolving users and sessions *)

Section resolution.

Lemma select_users_insert userId i n d :
  select_users userId
    (set_users (mkTable (rows (users d) ++ [mkUser i userId]) n) d)
  = select_users userId d ++ [mkUser i userId].
Proof.
  unfold select_users. cbn. rewrite filter_app, filter_cons.
  by rewrite decide_True.
Qed.

Lemma resolveUser_miss userId d :
  select_users userId d = [] →
  resolveUser userId d
  = (next_id (users d),
     set_users (mkTable (rows (users d) ++ [mkUser (next_id (users d)) userId])
                        (next_id (users d) + 1)) d).
Proof. intros H. unfold resolveUser. by rewrite H. Qed.

Lemma resolveUser_hit userId d u l :
  select_users userId d = u :: l → resolveUser userId d = (user_id u, d).
Proof. intros H. unfold resolveUser. by rewrite H. Qed.

(** Resolving a user touches no table but [users]. *)
Lemma resolveUser_frame userId d :
  let d' := (resolveUser userId d).2 in
  game_sessions d' = game_sessions d ∧ cards d' = cards d
  ∧ player_cards d' = player_cards d ∧ combat_log d' = combat_log d
  ∧ player_sessions d' = player_sessions d ∧ now d' = now d.
Proof. unfold resolveUser. by destruct (select_users userId d). Qed.

(** C6. Resolving the same username twice in sequence yields the same
    user id both times, and the second resolution leaves the store as the
    first one left it. The number of rows carrying the username is then 1
    if it was 0 or 1 before the first resolution (a miss inserts exactly
    one row, a hit none), and is never raised above what it was. *)
Theorem resolveUser_idempotent userId d :
  let r1 := resolveUser userId d in
  let r2 := resolveUser userId r1.2 in
  r2.1 = r1.1 ∧ r2.2 = r1.2
  ∧ length (select_users userId r2.2)
    = Nat.max 1 (length (select_users userId d)).
Proof.
  cbn zeta. destruct (select_users userId d) as [|u l] eqn:Hsel.
  - rewrite (resolveUser_miss _ _ Hsel). cbn [fst snd].
    erewrite resolveUser_hit
      by (rewrite select_users_insert, Hsel; reflexivity).
    cbn [fst snd user_id]. rewrite select_users_insert, Hsel. done.
  - rewrite (resolveUser_hit _ _ _ _ Hsel). cbn [fst snd].
    rewrite (resolveUser_hit _ _ _ _ Hsel). cbn [fst snd].
    rewrite Hsel. done.
Qed.

Lemma select_sessions_insert sessionName i uid n d :
  select_sessions sessionName
    (set_game_sessions
       (mkTable (rows (game_sessions d) ++ [mkSession i uid sessionName]) n) d)
  = select_sessions sessionName d ++ [mkSession i uid sessionName].
Proof.
  unfold select_sessions. cbn. rewrite filter_app, filter_cons.
  by rewrite decide_True.
Qed.

Lemma select_sessions_resolveUser sessionName userId d :
  select_sessions sessionName (resolveUser userId d).2
  = select_sessions sessionName d.
Proof.
  unfold select_sessions.
  by destruct (resolveUser_frame userId d) as (-> & _).
Qed.

Lemma resolveSession_miss sessionName uid d :
  select_sessions sessionName d = [] →
  resolveSession sessionName uid d
  = (next_id (game_sessions d),
     set_game_sessions
       (mkTable (rows (game_sessions d)
                 ++ [mkSession (next_id (game_sessions d)) uid sessionName])
                (next_id (game_sessions d) + 1)) d).
Proof. intros H. unfold resolveSession. by rewrite H. Qed.

Lemma resolveSession_hit sessionName uid d s l :
  select_sessions sessionName d = s :: l →
  resolveSession sessionName uid d = (session_id s, d).
Proof. intros H. unfold resolveSession. by rewrite H. Qed.

End resolution.

(** ** Joining a session *)

Section join.

Import Part000.

(** joinGame in terms of its steps. *)
Lemma joinGame_unfold sock sessionName userId w :
  joinGame sock sessionName userId w
  = let ru := resolveUser userId (db w) in
    let rs := resolveSession sessionName ru.1 ru.2 in
    (mkWorld (ensure_player_session ru.1 rs.1 rs.2)
             (socket_join sock rs.1 (rooms w)),
     [ mkEmit (ToSocket sock) "server:gameState"
         (PGameState (gameState rs.1 sessionName userId rs.2));
       mkEmit (ToRoomExcept rs.1 sock) "server:playerJoined"
         (PPlayer userId "TestUser") ]).
Proof.
  unfold joinGame.
  destruct (resolveUser userId (db w)) as [uid d1]. cbn [fst snd].
  by destruct (resolveSession sessionName uid d1) as [sid d2].
Qed.

Lemma ensure_player_session_frame uid sid d :
  let d' := ensure_player_session uid sid d in
  users d' = users d ∧ game_sessions d' = game_sessions d.
Proof. unfold ensure_player_session. by destruct (filter _ _). Qed.

Lemma select_sessions_ensure sessionName uid sid d :
  select_sessions sessionName (ensure_player_session uid sid d)
  = select_sessions sessionName d.
Proof.
  unfold select_sessions.
  by destruct (ensure_player_session_frame uid sid d) as (_ & ->).
Qed.

(** The first row a filter keeps, with the rows before it. *)
Lemma filter_head_split {A} (P : A → Prop) `{!∀ x, Decision (P x)}
    (l : list A) x k :
  filter P l = x :: k →
  ∃ l1 l2, l = l1 ++ x :: l2 ∧ P x ∧ ∀ y, y ∈ l1 → ¬ P y.
Proof.
  induction l as [|a l IH]; [done|].
  rewrite filter_cons. destruct (decide (P a)) as [Ha|Ha].
  - intros [= -> _]. exists [], l. split; [done|]. split; [done|].
    by intros y ?%elem_of_nil.
  - intros (l1 & l2 & -> & Hx & Hl1)%IH.
    exists (a :: l1), l2. split; [done|]. split; [done|].
    intros y [->|Hy]%elem_of_cons; auto.
Qed.

Lemma filter_nil_none {A} (P : A → Prop) `{!∀ x, Decision (P x)}
    (l : list A) :
  filter P l = [] → ∀ y, y ∈ l → ¬ P y.
Proof.
  intros Hf y Hy HP.
  assert (y ∈ filter P l) as Hin by (by apply list_elem_of_filter).
  rewrite Hf in Hin. by apply elem_of_nil in Hin.
Qed.

(** C7. Two joins of the same session name in sequence, by any two
    users over any two connections, send the same numeric session id in
    their snapshots. When no row of game_sessions carries the name before
    the first join, that join appends one row carrying the generated id,
    the name and the first joiner's resolved user id as [gm_user_id]; when
    some row carries it, the id is that of the first such row, whatever
    rows of other names come before it, and game_sessions is left alone.
    The second join never adds a session. *)
Theorem joinGame_session_keyed_by_name sock1 sock2 sessionName user1 user2 w :
  let r1 := joinGame sock1 sessionName user1 w in
  let r2 := joinGame sock2 sessionName user2 r1.1 in
  let uid1 := (resolveUser user1 (db w)).1 in
  let stored := rows (game_sessions (db w)) in
  ∃ sid gs1 gs2,
    head r1.2
    = Some (mkEmit (ToSocket sock1) "server:gameState" (PGameState gs1))
    ∧ head r2.2
      = Some (mkEmit (ToSocket sock2) "server:gameState" (PGameState gs2))
    ∧ gs_sessionId gs1 = sid ∧ gs_sessionId gs2 = sid
    ∧ (((∀ s, s ∈ stored → session_name s ≠ sessionName)
        ∧ sid = next_id (game_sessions (db w))
        ∧ rows (game_sessions (db r1.1))
          = stored ++ [mkSession sid uid1 sessionName])
       ∨ (∃ before s after,
            stored = before ++ s :: after
            ∧ (∀ s', s' ∈ before → session_name s' ≠ sessionName)
            ∧ session_name s = sessionName
            ∧ sid = session_id s
            ∧ game_sessions (db r1.1) = game_sessions (db w)))
    ∧ game_sessions (db r2.1) = game_sessions (db r1.1).
Proof.
  cbn zeta. rewrite (joinGame_unfold sock1). cbn zeta. cbn [fst snd db].
  rewrite (joinGame_unfold sock2). cbn zeta. cbn [fst snd db head].
  set (ru := resolveUser user1 (db w)).
  pose proof (select_sessions_resolveUser sessionName user1 (db w)) as Hsel.
  fold ru in Hsel.
  destruct (resolveUser_frame user1 (db w)) as (Hgs & _). fold ru in Hgs.
  set (rs := resolveSession sessionName ru.1 ru.2).
  set (d3 := ensure_player_session ru.1 rs.1 rs.2).
  set (ru' := resolveUser user2 d3).
  (* after the first join the name has a row whose id is the one sent *)
  assert (∃ s l, select_sessions sessionName ru'.2 = s :: l
                 ∧ session_id s = rs.1) as (s & l & Hs & Hid).
  { subst ru'. rewrite select_sessions_resolveUser. subst d3.
    rewrite select_sessions_ensure. subst rs.
    destruct (select_sessions sessionName ru.2) as [|s l] eqn:Hq.
    - rewrite (resolveSession_miss _ _ _ Hq). cbn [fst snd].
      rewrite select_sessions_insert, Hq. by eexists _, _.
    - rewrite (resolveSession_hit _ _ _ _ _ Hq). cbn [fst snd].
      by eexists _, _. }
  rewrite (resolveSession_hit _ _ _ _ _ Hs). cbn [fst snd].
  exists rs.1. eexists _, _.
  split; [reflexivity|]. split; [reflexivity|].
  split; [reflexivity|]. split; [by rewrite Hid|].
  split.
  - subst ru' d3.
    destruct (ensure_player_session_frame ru.1 rs.1 rs.2) as (_ & ->).
    subst rs. unfold select_sessions in Hsel. rewrite Hgs in Hsel.
    destruct (select_sessions sessionName ru.2) as [|s0 l0] eqn:Hq.
    + left. rewrite (resolveSession_miss _ _ _ Hq). cbn. rewrite Hgs.
      split; [|done].
      intros s1 Hs1 Hname. unfold select_sessions in Hq. rewrite Hgs in Hq.
      by apply (filter_nil_none _ _ Hq s1).
    + right. rewrite (resolveSession_hit _ _ _ _ _ Hq). cbn [fst snd].
      unfold select_sessions in Hq. rewrite Hgs in Hq.
      apply filter_head_split in Hq as (l1 & l2 & Hsplit & Hname & Hbefore).
      exists l1, s0, l2. done.
  - destruct (ensure_player_session_frame ru'.1 (session_id s) ru'.2)
      as (_ & ->).
    subst ru'. by destruct (resolveUser_frame user2 d3) as (-> & _).
Qed.

(** Among two stored sessions the name decides: joining "arena2" is sent
    the id of the second row and adds no session; joining the unseen
    "arena3" is sent a new id and appends its row, with the joiner as
    game-master. *)
Lemma joinGame_among_two_sessions :
  let d := Replay.two_sessions_db in
  let r := joinGame 8%nat "arena2" "bob" (mkWorld d ∅) in
  let r' := joinGame 8%nat "arena3" "bob" (mkWorld d ∅) in
  (∃ gs, head r.2
         = Some (mkEmit (ToSocket 8%nat) "server:gameState" (PGameState gs))
         ∧ gs_sessionId gs = 2)
  ∧ rows (game_sessions (db r.1)) = rows (game_sessions d)
  ∧ (∃ gs, head r'.2
           = Some (mkEmit (ToSocket 8%nat) "server:gameState" (PGameState gs))
           ∧ gs_sessionId gs = 3)
  ∧ rows (game_sessions (db r'.1))
    = rows (game_sessions d) ++ [mkSession 3 2 "arena3"].
Proof.
  cbn zeta. rewrite !joinGame_unfold. cbn zeta. cbn [fst snd db head].
  split; [eexists; split; [reflexivity|]; cbn [gs_sessionId gameState];
          by vm_compute|].
  split; [by vm_compute|].
  split; [eexists; split; [reflexivity|]; cbn [gs_sessionId gameState];
          by vm_compute|].
  by vm_compute.
Qed.

Lemma members_socket_join sock room rs :
  members room (socket_join sock room rs) = {[sock]} ∪ members room rs.
Proof. unfold members at 1, socket_join. by rewrite lookup_insert_eq. Qed.

(** C9. A join emits exactly two events: [server:gameState], whose only
    recipient is the joining connection, and [server:playerJoined],
    carrying the supplied user identifier and the display name, addressed
    to the room of the session; with the joiner now a member of that room,
    its recipients are all the members of the room other than the
    joiner. *)
Theorem joinGame_snapshot_to_joiner_notice_to_others
    sock sessionName userId w :
  let r := joinGame sock sessionName userId w in
  ∃ gs,
    r.2 = [ mkEmit (ToSocket sock) "server:gameState" (PGameState gs);
            mkEmit (ToRoomExcept (gs_sessionId gs) sock) "server:playerJoined"
                   (PPlayer userId "TestUser") ]
    ∧ recipients (rooms r.1) (ToSocket sock) = {[sock]}
    ∧ sock ∈ members (gs_sessionId gs) (rooms r.1)
    ∧ (sock ∉ recipients (rooms r.1) (ToRoomExcept (gs_sessionId gs) sock))
    ∧ (∀ other, other ≠ sock →
         (other ∈ recipients (rooms r.1) (ToRoomExcept (gs_sessionId gs) sock)
          ↔ other ∈ members (gs_sessionId gs) (rooms r.1))).
Proof.
  cbn zeta. rewrite joinGame_unfold. cbn zeta. cbn [fst snd rooms].
  set (rs := resolveSession sessionName _ _).
  exists (gameState rs.1 sessionName userId rs.2).
  split; [reflexivity|]. cbn [gs_sessionId gameState recipients].
  rewrite members_socket_join.
  split; [done|]. split; [|split].
  - apply elem_of_union_l. by apply elem_of_singleton.
  - rewrite elem_of_difference, elem_of_singleton. tauto.
  - intros other Hne. rewrite elem_of_difference, elem_of_singleton. tauto.
Qed.

End join.

(** ** Creating a card *)

Section create.

Lemma obj_spread_lookup_Some kvs (o : JsObj) k v :
  o !! k = Some v → obj_spread kvs o !! k = Some v.
Proof. intros H. unfold obj_spread. by apply lookup_union_Some_l. Qed.

Lemma obj_spread_lookup_None kvs (o : JsObj) k :
  o !! k = None → obj_spread kvs o !! k = obj kvs !! k.
Proof. intros H. unfold obj_spread. by rewrite lookup_union_r. Qed.

Lemma get_lookup_Some (o : JsObj) k v : o !! k = Some v → get o k = v.
Proof. intros H. unfold get. by rewrite H. Qed.

Lemma Part000_createCard_emits sid userId cardData d :
  (Part000.createCard sid userId cardData d).2
  = [ mkEmit (ToRoom sid) "server:cardCreated"
        (PCard (Part000.fullNewCard (next_id (cards d))
                  (next_id (player_cards d)) userId cardData)) ].
Proof.
  unfold Part000.createCard, resolveUser.
  by destruct (select_users userId d).
Qed.

Lemma Part000_createCard_cards sid userId cardData d :
  rows (cards (Part000.createCard sid userId cardData d).1)
  = rows (cards d)
    ++ [ mkCard (next_id (cards d))
           (list_to_map
              (zip card_columns (bind <$> Part000.card_values cardData))) ].
Proof.
  unfold Part000.createCard, resolveUser.
  by destruct (select_users userId d).
Qed.

Lemma Part000_createCard_player_cards sid userId cardData d :
  rows (player_cards (Part000.createCard sid userId cardData d).1)
  = rows (player_cards d)
    ++ [ mkPlayerCard (next_id (player_cards d)) (resolveUser userId d).1
           (next_id (cards d)) sid "CreatedCardStorage" None false ].
Proof.
  unfold Part000.createCard, resolveUser.
  by destruct (select_users userId d).
Qed.

Lemma Part000_createCard_users sid userId cardData d :
  users (Part000.createCard sid userId cardData d).1
  = users (resolveUser userId d).2.
Proof.
  unfold Part000.createCard, resolveUser.
  by destruct (select_users userId d).
Qed.

Lemma ServerIndex_createCard_emits sid userId cardData d :
  (ServerIndex.createCard sid userId cardData d).2
  = [ mkEmit (ToRoom sid) "server:cardCreated"
        (PCard (ServerIndex.fullNewCard (next_id (cards d)) userId cardData)) ].
Proof.
  unfold ServerIndex.createCard, resolveUser.
  by destruct (select_users userId d).
Qed.

Lemma ServerIndex_createCard_cards sid userId cardData d :
  rows (cards (ServerIndex.createCard sid userId cardData d).1)
  = rows (cards d)
    ++ [ mkCard (next_id (cards d))
           (list_to_map
              (zip card_columns (bind <$> ServerIndex.card_values cardData))) ].
Proof.
  unfold ServerIndex.createCard, resolveUser.
  by destruct (select_users userId d).
Qed.

Lemma ServerIndex_createCard_player_cards sid userId cardData d :
  rows (player_cards (ServerIndex.createCard sid userId cardData d).1)
  = rows (player_cards d)
    ++ [ mkPlayerCard (next_id (player_cards d)) (resolveUser userId d).1
           (next_id (cards d)) sid "CreatedCardStorage" None false ].
Proof.
  unfold ServerIndex.createCard, resolveUser.
  by destruct (select_users userId d).
Qed.

Lemma ServerIndex_createCard_users sid userId cardData d :
  users (ServerIndex.createCard sid userId cardData d).1
  = users (resolveUser userId d).2.
Proof.
  unfold ServerIndex.createCard, resolveUser.
  by destruct (select_users userId d).
Qed.

(** The instance row createCard stores, in both versions of the handler:
    appended to player_cards in "CreatedCardStorage", without a slot,
    inactive. *)
Lemma createCard_instance_stored sid userId cardData d :
  let pc := mkPlayerCard (next_id (player_cards d)) (resolveUser userId d).1
              (next_id (cards d)) sid "CreatedCardStorage" None false in
  last (rows (player_cards (Part000.createCard sid userId cardData d).1))
  = Some pc
  ∧ last (rows (player_cards (ServerIndex.createCard sid userId cardData d).1))
    = Some pc.
Proof.
  cbn zeta.
  rewrite Part000_createCard_player_cards, ServerIndex_createCard_player_cards.
  by rewrite last_snoc.
Qed.

(** When the request body has no property named [location], [slot_id] or
    [is_active], the broadcast of the full server carries the values of
    the new instance for them. *)
Lemma Part000_fullNewCard_instance_fields newCardId playerCardId userId
    (cardData : JsObj) :
  cardData !! "location" = None → cardData !! "slot_id" = None →
  cardData !! "is_active" = None →
  let card := Part000.fullNewCard newCardId playerCardId userId cardData in
  get card "location" = JStr "CreatedCardStorage"
  ∧ get card "slot_id" = JNull ∧ get card "is_active" = JBool false.
Proof.
  intros Hl Hs Ha. cbn zeta. unfold get, Part000.fullNewCard.
  by rewrite !obj_spread_lookup_None.
Qed.

(** C4, at a request whose card data sets the definition's active flag.
    The stored instance is in "CreatedCardStorage", without a slot and
    inactive, and the broadcast has that location and no slot; but its
    [is_active] is the [true] of the request body, which the spread writes
    over the [false] of the new instance. *)
Theorem createCard_broadcast_active_flag_overwritten :
  let r := Part000.createCard 1 "alice" Scenario.fire_bolt Scenario.table_db in
  let r' :=
    ServerIndex.createCard 1 "alice" Scenario.fire_bolt Scenario.table_db in
  last (rows (player_cards r.1))
  = Some (mkPlayerCard 2 1 2 1 "CreatedCardStorage" None false)
  ∧ last (rows (player_cards r'.1))
    = Some (mkPlayerCard 2 1 2 1 "CreatedCardStorage" None false)
  ∧ (∃ card,
       r.2 = [mkEmit (ToRoom 1) "server:cardCreated" (PCard card)]
       ∧ get card "location" = JStr "CreatedCardStorage"
       ∧ get card "slot_id" = JNull
       ∧ get card "is_active" = JBool true)
  ∧ (∃ card,
       r'.2 = [mkEmit (ToRoom 1) "server:cardCreated" (PCard card)]
       ∧ get card "location" = JStr "CreatedCardStorage"
       ∧ get card "slot_id" = JNull
       ∧ get card "is_active" = JBool true).
Proof.
  cbn zeta.
  rewrite Part000_createCard_player_cards, ServerIndex_createCard_player_cards.
  rewrite Part000_createCard_emits, ServerIndex_createCard_emits.
  split; [by vm_compute|]. split; [by vm_compute|].
  split; (eexists; split; [reflexivity|]; by vm_compute).
Qed.

(** C8. In both versions of createCard the one emission is
    [server:cardCreated] to the room, and its payload is the request's
    card data spread over the identity and location fields of the new
    instance: every property of the card data is in the payload with the
    value the caller gave; a property the card data lacks has the value of
    the identity/location literal; so wherever the stored definition row
    holds another value than the one supplied, the payload carries the
    supplied one. *)
Theorem createCard_broadcast_echoes_card_data sid userId (cardData : JsObj) d :
  (∃ card persisted,
     (Part000.createCard sid userId cardData d).2
     = [mkEmit (ToRoom sid) "server:cardCreated" (PCard card)]
     ∧ last (rows (cards (Part000.createCard sid userId cardData d).1))
       = Some persisted
     ∧ (∀ k v, cardData !! k = Some v → card !! k = Some v)
     ∧ (∀ k, cardData !! k = None →
             card !! k
             = obj [ ("card_id", JNum (card_id persisted));
                     ("player_card_id", JNum (next_id (player_cards d)));
                     ("ownerId", JStr userId);
                     ("location", JStr "CreatedCardStorage");
                     ("slot_id", JNull); ("is_active", JBool false) ] !! k)
     ∧ (∀ k v, cardData !! k = Some v →
               get (card_obj persisted) k ≠ v → get card k = v))
  ∧ (∃ card persisted,
       (ServerIndex.createCard sid userId cardData d).2
       = [mkEmit (ToRoom sid) "server:cardCreated" (PCard card)]
       ∧ last (rows (cards (ServerIndex.createCard sid userId cardData d).1))
         = Some persisted
       ∧ (∀ k v, cardData !! k = Some v → card !! k = Some v)
       ∧ (∀ k, cardData !! k = None →
               card !! k
               = obj [ ("card_id", JNum (card_id persisted));
                       ("ownerId", JStr userId);
                       ("location", JStr "CreatedCardStorage");
                       ("slot_id", JNull) ] !! k)
       ∧ (∀ k v, cardData !! k = Some v →
                 get (card_obj persisted) k ≠ v → get card k = v)).
Proof.
  split.
  - rewrite Part000_createCard_emits, Part000_createCard_cards, last_snoc.
    eexists _, _. split; [reflexivity|]. split; [reflexivity|].
    unfold Part000.fullNewCard. cbn [card_id].
    split; [|split].
    + intros k v Hk. by apply obj_spread_lookup_Some.
    + intros k Hk. by apply obj_spread_lookup_None.
    + intros k v Hk _. by apply get_lookup_Some, obj_spread_lookup_Some.
  - rewrite ServerIndex_createCard_emits, ServerIndex_createCard_cards,
      last_snoc.
    eexists _, _. split; [reflexivity|]. split; [reflexivity|].
    unfold ServerIndex.fullNewCard. cbn [card_id].
    split; [|split].
    + intros k v Hk. by apply obj_spread_lookup_Some.
    + intros k Hk. by apply obj_spread_lookup_None.
    + intros k v Hk _. by apply get_lookup_Some, obj_spread_lookup_Some.
Qed.

(** Payload and stored row do diverge: a zero supplied for an optional
    attribute is stored as NULL and broadcast as zero. *)
Lemma createCard_broadcast_diverges_from_row :
  let r := Part000.createCard 1 "alice" Scenario.fire_bolt Scenario.table_db in
  ∃ card persisted,
    r.2 = [mkEmit (ToRoom 1) "server:cardCreated" (PCard card)]
    ∧ last (rows (cards r.1)) = Some persisted
    ∧ get (card_obj persisted) "card_weapon_damage" = JNull
    ∧ get card "card_weapon_damage" = JNum 0.
Proof.
  cbn zeta. rewrite Part000_createCard_emits, Part000_createCard_cards.
  rewrite last_snoc. eexists _, _.
  split; [reflexivity|]. split; [reflexivity|]. by vm_compute.
Qed.

End create.

(** ** What createCard stores for the optional attributes *)

Section optional_attributes.

(** [x || null], bound into the statement. *)
Lemma bind_or_else_null v :
  bind (or_else v JNull) = if truthy v then bind v else JNull.
Proof. unfold or_else. by destruct (truthy v). Qed.

(** src/server/index.js: every optional column receives the property of
    the same name when it is truthy ([true] as 1) and NULL otherwise. *)
Lemma ServerIndex_optional_stored (cardData : JsObj) col :
  col ∈ optional_columns →
  get (list_to_map
         (zip card_columns (bind <$> ServerIndex.card_values cardData))) col
  = if truthy (get cardData col) then bind (get cardData col) else JNull.
Proof.
  intros Hcol. rewrite <- bind_or_else_null.
  unfold optional_columns in Hcol. cbn [drop card_columns] in Hcol.
  repeat (apply elem_of_cons in Hcol as [->|Hcol]; [reflexivity|]).
  by apply elem_of_nil in Hcol.
Qed.

(** The full server: the same for eighteen of the twenty optional columns;
    the suit intellect and rally modifiers are read from properties that
    lack the [suit_] part of the column name. *)
Lemma Part000_optional_stored (cardData : JsObj) col :
  col ∈ optional_columns →
  let key :=
    if decide (col = "card_suit_intellect_modifier")
    then "card_intellect_modifier"
    else if decide (col = "card_suit_rally_modifier")
         then "card_rally_modifier" else col in
  get (list_to_map
         (zip card_columns (bind <$> Part000.card_values cardData))) col
  = if truthy (get cardData key) then bind (get cardData key) else JNull.
Proof.
  intros Hcol. cbn zeta. rewrite <- bind_or_else_null.
  unfold optional_columns in Hcol. cbn [drop card_columns] in Hcol.
  repeat (apply elem_of_cons in Hcol as [->|Hcol]; [reflexivity|]).
  by apply elem_of_nil in Hcol.
Qed.

(** C10, at a request that supplies 4 for the suit intellect modifier,
    an empty string for the hero role and 0 for the weapon damage. The
    full server stores NULL for the two falsy values and the supplied 1
    for the might modifier, but NULL instead of the supplied 4 for the
    intellect modifier; the handler of src/server/index.js stores the 4. *)
Theorem createCard_suit_intellect_modifier_not_stored :
  let r := Part000.createCard 1 "alice" Scenario.fire_bolt Scenario.table_db in
  let r' :=
    ServerIndex.createCard 1 "alice" Scenario.fire_bolt Scenario.table_db in
  get Scenario.fire_bolt "card_suit_intellect_modifier" = JNum 4
  ∧ truthy (JNum 4) = true
  ∧ (∃ row,
       last (rows (cards r.1)) = Some row
       ∧ get (card_fields row) "card_hero_role" = JNull
       ∧ get (card_fields row) "card_weapon_damage" = JNull
       ∧ get (card_fields row) "card_suit_might_modifier" = JNum 1
       ∧ get (card_fields row) "card_suit_intellect_modifier" = JNull)
  ∧ (∃ row,
       last (rows (cards r'.1)) = Some row
       ∧ get (card_fields row) "card_suit_intellect_modifier" = JNum 4).
Proof.
  cbn zeta. rewrite Part000_createCard_cards, ServerIndex_createCard_cards.
  rewrite !last_snoc.
  split; [by vm_compute|]. split; [done|].
  split; (eexists; split; [reflexivity|]; by vm_compute).
Qed.

End optional_attributes.

(** ** The snapshot of a join *)

Section snapshot.

(** C3, at a join of a session that holds one instance of a suit card
    whose stored intellect modifier is 2 and rally modifier is 5. The
    snapshot lists the instance with the stored might modifier, but its
    [card_suit_intellect_modifier] and [card_suit_rally_modifier] are
    [undefined]: they are read from [card_intellect_modifier] and
    [card_rally_modifier], which no column of the result row is named. *)
Theorem joinGame_snapshot_loses_suit_modifiers :
  let r := Part000.joinGame 8%nat "arena1" "bob" Scenario.table_world in
  get (card_obj Scenario.suit_card) "card_suit_might_modifier" = JNum 1
  ∧ get (card_obj Scenario.suit_card) "card_suit_intellect_modifier" = JNum 2
  ∧ get (card_obj Scenario.suit_card) "card_suit_rally_modifier" = JNum 5
  ∧ ∃ gs card,
      head r.2
      = Some (mkEmit (ToSocket 8%nat) "server:gameState" (PGameState gs))
      ∧ gs_cards gs = [card]
      ∧ get card "player_card_id" = JNum 1
      ∧ get card "card_suit_might_modifier" = JNum 1
      ∧ get card "card_suit_intellect_modifier" = JUndefined
      ∧ get card "card_suit_rally_modifier" = JUndefined.
Proof.
  cbn zeta. split; [by vm_compute|]. split; [by vm_compute|].
  split; [by vm_compute|].
  rewrite joinGame_unfold. cbn zeta. cbn [snd head].
  eexists _, _. split; [reflexivity|]. by vm_compute.
Qed.

End snapshot.

(** ** Unknown usernames, handler by handler *)

Section unknown_username.

Import Part000.

Lemma lookupUser_miss userId d :
  select_users userId d = [] → lookupUser userId d = None.
Proof. intros H. unfold lookupUser. by rewrite H. Qed.

Lemma resolveSession_users sessionName uid d :
  users (resolveSession sessionName uid d).2 = users d.
Proof. unfold resolveSession. by destruct (select_sessions sessionName d). Qed.

Lemma ensure_player_session_elem uid sid d :
  mkPlayerSession uid sid ∈ player_sessions (ensure_player_session uid sid d).
Proof.
  unfold ensure_player_session.
  destruct (filter _ (player_sessions d)) as [|ps l] eqn:Hf.
  - cbn. apply elem_of_app. right. apply list_elem_of_here.
  - assert (ps ∈ filter (λ ps, ps_user_id ps = uid ∧ ps_session_id ps = sid)
                        (player_sessions d)) as Hin
      by (rewrite Hf; apply list_elem_of_here).
    apply list_elem_of_filter in Hin as [[Hu Hs] Hin].
    destruct ps as [u s]. cbn in Hu, Hs. by subst.
Qed.

(** At a concrete store: moveCard answers a username that has no row with
    an error to the caller and inserts no user. *)
Lemma moveCard_unknown_username_refused :
  select_users "mallory" Scenario.table_db = []
  ∧ moveCard 9%nat 1 "mallory" 1 "battlefield" "hand" None false
             Scenario.table_db
    = (Scenario.table_db,
       [emit_error 9%nat "User not authenticated for card move."]).
Proof. split; by vm_compute. Qed.

(** C5, as the handlers have it. For a username that has no row in
    [users]: joinGame and both versions of createCard append one user row
    with the generated id and carry on with that id -- the join sends its
    snapshot and notice and records the player_sessions row under it, the
    creation broadcasts the card and stores the instance under it as
    owner; moveCard and playCardAction insert nothing, leave the store
    untouched and answer with a single [error] event to the caller. *)
Theorem unknown_username_created_or_refused sock sessionName sessionId userId
    (cardData : JsObj) playerCardId oldLocation destinationLocation
    destinationSlotId isActive w :
  select_users userId (db w) = [] →
  let d := db w in
  let uid := next_id (users d) in
  let rj := joinGame sock sessionName userId w in
  let rc := createCard sessionId userId cardData d in
  let rc' := ServerIndex.createCard sessionId userId cardData d in
  (rows (users (db rj.1)) = rows (users d) ++ [mkUser uid userId]
   ∧ ∃ gs,
       rj.2 = [ mkEmit (ToSocket sock) "server:gameState" (PGameState gs);
                mkEmit (ToRoomExcept (gs_sessionId gs) sock)
                       "server:playerJoined" (PPlayer userId "TestUser") ]
       ∧ mkPlayerSession uid (gs_sessionId gs) ∈ player_sessions (db rj.1))
  ∧ (rows (users rc.1) = rows (users d) ++ [mkUser uid userId]
     ∧ (∃ card,
          rc.2 = [mkEmit (ToRoom sessionId) "server:cardCreated" (PCard card)])
     ∧ ∃ pc, last (rows (player_cards rc.1)) = Some pc ∧ pc_user_id pc = uid)
  ∧ (rows (users rc'.1) = rows (users d) ++ [mkUser uid userId]
     ∧ (∃ card,
          rc'.2 = [mkEmit (ToRoom sessionId) "server:cardCreated" (PCard card)])
     ∧ ∃ pc, last (rows (player_cards rc'.1)) = Some pc ∧ pc_user_id pc = uid)
  ∧ moveCard sock sessionId userId playerCardId oldLocation
             destinationLocation destinationSlotId isActive d
    = (d, [emit_error sock "User not authenticated for card move."])
  ∧ playCardAction sock sessionId userId playerCardId oldLocation d
    = (d, [emit_error sock "User not authenticated for playing card."]).
Proof.
  intros Hmiss. cbn zeta.
  pose proof (resolveUser_miss _ _ Hmiss) as Hru.
  split; [|split; [|split; [|split]]].
  - rewrite joinGame_unfold. cbn zeta. cbn [fst snd db].
    set (ru := resolveUser userId (db w)) in *.
    set (rs := resolveSession sessionName ru.1 ru.2).
    split.
    + destruct (ensure_player_session_frame ru.1 rs.1 rs.2) as (-> & _).
      subst rs. rewrite resolveSession_users. by rewrite Hru.
    + exists (gameState rs.1 sessionName userId rs.2).
      split; [reflexivity|]. cbn [gs_sessionId gameState].
      replace (next_id (users (db w))) with ru.1 by (by rewrite Hru).
      apply ensure_player_session_elem.
  - rewrite Part000_createCard_users, Part000_createCard_emits,
      Part000_createCard_player_cards, last_snoc, Hru.
    split; [done|]. split; by eexists.
  - rewrite ServerIndex_createCard_users, ServerIndex_createCard_emits,
      ServerIndex_createCard_player_cards, last_snoc, Hru.
    split; [done|]. split; by eexists.
  - unfold moveCard. by rewrite lookupUser_miss.
  - unfold playCardAction. by rewrite lookupUser_miss.
Qed.

Lemma unknown_username_created_or_refused_mallory :
  let d := Scenario.table_db in
  let rj := joinGame 9%nat "arena1" "mallory" Scenario.table_world in
  let rc := createCard 1 "mallory" Scenario.fire_bolt d in
  let rc' := ServerIndex.createCard 1 "mallory" Scenario.fire_bolt d in
  (rows (users (db rj.1)) = rows (users d) ++ [mkUser 3 "mallory"]
   ∧ ∃ gs,
       rj.2 = [ mkEmit (ToSocket 9%nat) "server:gameState" (PGameState gs);
                mkEmit (ToRoomExcept (gs_sessionId gs) 9%nat)
                       "server:playerJoined" (PPlayer "mallory" "TestUser") ]
       ∧ mkPlayerSession 3 (gs_sessionId gs) ∈ player_sessions (db rj.1))
  ∧ (rows (users rc.1) = rows (users d) ++ [mkUser 3 "mallory"]
     ∧ (∃ card, rc.2 = [mkEmit (ToRoom 1) "server:cardCreated" (PCard card)])
     ∧ ∃ pc, last (rows (player_cards rc.1)) = Some pc ∧ pc_user_id pc = 3)
  ∧ (rows (users rc'.1) = rows (users d) ++ [mkUser 3 "mallory"]
     ∧ (∃ card, rc'.2 = [mkEmit (ToRoom 1) "server:cardCreated" (PCard card)])
     ∧ ∃ pc, last (rows (player_cards rc'.1)) = Some pc ∧ pc_user_id pc = 3)
  ∧ moveCard 9%nat 1 "mallory" 1 "battlefield" "hand" None false d
    = (d, [emit_error 9%nat "User not authenticated for card move."])
  ∧ playCardAction 9%nat 1 "mallory" 1 "battlefield" d
    = (d, [emit_error 9%nat "User not authenticated for playing card."]).
Proof.
  apply (unknown_username_created_or_refused 9%nat "arena1" 1 "mallory"
           Scenario.fire_bolt 1 "battlefield" "hand" None false
           Scenario.table_world).
  vm_compute. reflexivity.
Defined.

End unknown_username.

(** ** ORDER BY *)

Section ordering.

Context {A : Type} (key : A → Z).

Let le_key (a b : A) : Prop := key a ≤ key b.

Lemma insert_by_perm x l : insert_by key x l ≡ₚ x :: l.
Proof.
  induction l as [|y l IH]; [done|]. cbn.
  destruct (key x <=? key y); [done|].
  rewrite IH. apply Permutation_swap.
Qed.

Lemma order_by_perm l : order_by key l ≡ₚ l.
Proof.
  induction l as [|x l IH]; [done|].
  unfold order_by in *. cbn. by rewrite insert_by_perm, IH.
Qed.

Lemma insert_by_sorted x l :
  StronglySorted le_key l → StronglySorted le_key (insert_by key x l).
Proof.
  induction l as [|y l IH]; intros Hs; cbn.
  - apply StronglySorted_cons. split; [constructor|done].
  - apply StronglySorted_cons in Hs as [Hy Hl].
    destruct (Z.leb_spec (key x) (key y)) as [Hle|Hlt].
    + apply StronglySorted_cons. split.
      * constructor; [done|].
        eapply Forall_impl; [exact Hy|]. unfold le_key. intros; lia.
      * by apply StronglySorted_cons.
    + apply StronglySorted_cons. split; [|by apply IH].
      rewrite insert_by_perm. constructor; [unfold le_key; lia|done].
Qed.

Lemma order_by_sorted l : StronglySorted le_key (order_by key l).
Proof.
  induction l as [|x l IH]; [constructor|].
  unfold order_by in *. cbn. by apply insert_by_sorted.
Qed.

(** On rows that are already in order the sort changes nothing: rows of
    equal key keep their places. *)
Lemma order_by_sorted_id l : StronglySorted le_key l → order_by key l = l.
Proof.
  induction l as [|x l IH]; [done|].
  intros [Hx Hl]%StronglySorted_cons.
  unfold order_by in *. cbn. rewrite IH by done.
  destruct l as [|y l]; [done|]. cbn.
  apply Forall_cons in Hx as [Hxy _]. unfold le_key in Hxy.
  by destruct (Z.leb_spec (key x) (key y)); [|lia].
Qed.

Lemma StronglySorted_take_le n l :
  StronglySorted le_key l → StronglySorted le_key (take n l).
Proof.
  intros Hs. rewrite <- (take_drop n l) in Hs.
  by apply StronglySorted_app_1_l in Hs.
Qed.

Lemma StronglySorted_filter_le (P : A → Prop) `{!∀ x, Decision (P x)} l :
  StronglySorted le_key l → StronglySorted le_key (filter P l).
Proof.
  induction l as [|x l IH]; [done|].
  intros [Hx Hl]%StronglySorted_cons. rewrite filter_cons.
  destruct (decide (P x)); [|by apply IH].
  apply StronglySorted_cons. split; [|by apply IH].
  apply Forall_forall. intros y [_ Hy]%list_elem_of_filter.
  by eapply Forall_forall in Hx.
Qed.

Lemma strict_sorted_key_inj l x y :
  StronglySorted (λ a b, key a < key b) l →
  x ∈ l → y ∈ l → key x = key y → x = y.
Proof.
  induction l as [|a l IH]; intros Hs Hx Hy Hk; [by apply elem_of_nil in Hx|].
  apply StronglySorted_cons in Hs as [Ha Hl].
  apply elem_of_cons in Hx as [->|Hx]; apply elem_of_cons in Hy as [->|Hy].
  - done.
  - eapply Forall_forall in Ha; [|exact Hy]. cbn in Ha. lia.
  - eapply Forall_forall in Ha; [|exact Hx]. cbn in Ha. lia.
  - by apply IH.
Qed.

(** Rows of pairwise distinct keys have one sorted arrangement only. *)
Lemma sorted_perm_strict_unique l ls :
  StronglySorted (λ a b, key a < key b) l →
  ls ≡ₚ l → StronglySorted le_key ls → ls = l.
Proof.
  intros Hstrict Hperm Hsorted.
  apply (StronglySorted_unique_strong le_key); [|done| |done].
  - intros x1 x2 Hx1 Hx2 H12 H21. unfold le_key in *.
    apply (strict_sorted_key_inj l); [done| |done|lia]. by rewrite <- Hperm.
  - clear Hperm Hsorted. induction l as [|a l IH]; [constructor|].
    apply StronglySorted_cons in Hstrict as [Ha Hl].
    apply StronglySorted_cons. split; [|by apply IH].
    eapply Forall_impl; [exact Ha|]. unfold le_key. cbn. intros; lia.
Qed.

End ordering.

(** ** The snapshot: catalog and combat log *)

Section snapshot_lists.

Import Part000.

(** X1. The reference catalog of a snapshot is made of stored card
    definitions, at most 50 of them and all of them when the store has no
    more than 50, in ascending order of card id; a definition that is left
    out has an id no smaller than any that is listed; and an entry exposes
    exactly five properties: the id (as stored) and name, type, description
    and power level. *)
Theorem gameState_catalog sid sessionName userId d :
  ∃ cs,
    gs_allCardDefinitions (gameState sid sessionName userId d)
    = (λ c, obj (pick catalog_fields (card_obj c))) <$> cs
    ∧ length cs = Nat.min 50 (length (rows (cards d)))
    ∧ StronglySorted (λ a b, card_id a ≤ card_id b) cs
    ∧ (∀ c, c ∈ cs → c ∈ rows (cards d))
    ∧ (∀ c c', c ∈ rows (cards d) → c ∉ cs → c' ∈ cs →
               card_id c' ≤ card_id c)
    ∧ ((length (rows (cards d)) ≤ 50)%nat → cs ≡ₚ rows (cards d))
    ∧ (∀ c, c ∈ cs →
         dom (obj (pick catalog_fields (card_obj c)))
         = list_to_set [ "card_id"; "card_name"; "card_type"; "description";
                         "power_level" ]
         ∧ get (obj (pick catalog_fields (card_obj c))) "card_id"
           = JNum (card_id c)
         ∧ get (obj (pick catalog_fields (card_obj c))) "card_name"
           = get (card_fields c) "card_name").
Proof.
  exists (take 50 (order_by card_id (rows (cards d)))).
  pose proof (order_by_perm card_id (rows (cards d))) as Hperm.
  pose proof (order_by_sorted card_id (rows (cards d))) as Hsort.
  split; [reflexivity|]. split; [|split; [|split; [|split; [|split]]]].
  - by rewrite length_take, Hperm.
  - by apply StronglySorted_take_le.
  - intros c Hc. rewrite <- Hperm. by eapply subseteq_take.
  - intros c c' Hc Hout Hc'.
    rewrite <- Hperm, <- (take_drop 50 (order_by _ _)) in Hc.
    apply elem_of_app in Hc as [Hc|Hc]; [done|].
    rewrite <- (take_drop 50 (order_by _ _)) in Hsort.
    by apply (StronglySorted_app_1_elem_of _ _ _ c' c) in Hsort.
  - intros Hlen. rewrite take_ge; [done|]. by rewrite Hperm.
  - intros c _. split; [|split].
    + unfold obj. rewrite dom_list_to_map_L. reflexivity.
    + unfold get, card_obj. cbn [pick catalog_fields map].
      unfold obj. cbn [list_to_map foldr]. unfold get.
      by rewrite lookup_insert_eq, lookup_insert_eq.
    + unfold obj. cbn [pick catalog_fields map list_to_map foldr].
      unfold get at 1. rewrite lookup_insert_ne, lookup_insert_eq by done.
      unfold get, card_obj. by rewrite lookup_insert_ne.
Qed.

(** X2. The combat log of a snapshot holds the log rows of the joined
    session, each once, and no row of another session, in ascending order
    of timestamp; each entry carries the row's id, user, card, action type,
    description and timestamp. *)
Theorem gameState_combat_log sid sessionName userId d :
  ∃ ls,
    gs_combatLog (gameState sid sessionName userId d) = log_obj <$> ls
    ∧ ls ≡ₚ filter (λ l, log_session_id l = sid) (rows (combat_log d))
    ∧ StronglySorted (λ a b, action_timestamp a ≤ action_timestamp b) ls
    ∧ (∀ l, l ∈ ls ↔ l ∈ rows (combat_log d) ∧ log_session_id l = sid).
Proof.
  exists (order_by action_timestamp
            (filter (λ l, log_session_id l = sid) (rows (combat_log d)))).
  split; [reflexivity|]. split; [apply order_by_perm|].
  split; [apply order_by_sorted|].
  intros l. rewrite order_by_perm, list_elem_of_filter. tauto.
Qed.

(** X3. When the stored log rows of the session have strictly
    increasing timestamps in the order they were written, the snapshot
    lists them in exactly that order, oldest first. (Among rows of equal
    timestamp the query fixes no order, and none is stated.) *)
Theorem gameState_combat_log_insertion_order sid sessionName userId d :
  StronglySorted (λ a b, action_timestamp a < action_timestamp b)
    (filter (λ l, log_session_id l = sid) (rows (combat_log d))) →
  gs_combatLog (gameState sid sessionName userId d)
  = log_obj <$> filter (λ l, log_session_id l = sid) (rows (combat_log d)).
Proof.
  intros Hstrict. unfold gameState. cbn [gs_combatLog]. f_equal.
  apply (sorted_perm_strict_unique action_timestamp); [done|..].
  - apply order_by_perm.
  - apply order_by_sorted.
Qed.

Lemma gameState_combat_log_insertion_order_played :
  gs_combatLog (gameState 1 "arena1" "bob" (db Replay.played_world))
  = log_obj <$> filter (λ l, log_session_id l = 1)
                       (rows (combat_log (db Replay.played_world))).
Proof.
  apply (gameState_combat_log_insertion_order 1 "arena1" "bob"
           (db Replay.played_world)).
  vm_compute. repeat constructor.
Defined.

End snapshot_lists.

(** ** The store stays consistent *)

Section consistency.

Import Part000.

Lemma keys_fresh_insert {A} (key : A → Z) (mk : Z → A) (t : Table A) :
  key (mk (next_id t)) = next_id t →
  keys_fresh key t → keys_fresh key (tbl_insert mk t).2.
Proof.
  intros Hk [Hnd Hlt]. split; cbn.
  - rewrite fmap_app. apply NoDup_app. split; [done|].
    split; [|apply NoDup_singleton].
    intros x [r [-> Hr]]%list_elem_of_fmap Hx. cbn in Hx.
    apply list_elem_of_singleton in Hx.
    eapply Forall_forall in Hlt; [|done]. cbn in Hlt. lia.
  - apply Forall_app. split.
    + eapply Forall_impl; [done|]. cbn. intros; lia.
    + apply Forall_singleton. lia.
Qed.

Lemma keys_fresh_update {A} (key : A → Z) (P : A → Prop)
    `{!∀ x, Decision (P x)} (f : A → A) (t : Table A) :
  (∀ r, key (f r) = key r) →
  keys_fresh key t → keys_fresh key (tbl_update P f t).2.
Proof.
  intros Hk [Hnd Hlt].
  assert (∀ r, key (if decide (P r) then f r else r) = key r) as Hk'
    by (intros r; by destruct (decide (P r))).
  split; cbn.
  - change (map ?g (rows t)) with (g <$> rows t).
    rewrite <- list_fmap_compose.
    erewrite list_fmap_ext; [exact Hnd|]. intros i r _. cbn. apply Hk'.
  - change (map ?g (rows t)) with (g <$> rows t).
    apply Forall_fmap. eapply Forall_impl; [done|].
    intros r Hr. cbn. by rewrite Hk'.
Qed.

Lemma db_ok_resolveUser userId d : db_ok d → db_ok (resolveUser userId d).2.
Proof.
  intros Hok. unfold resolveUser.
  destruct (select_users userId d); [|done].
  destruct Hok as [? [Hn Hpos] ? ? ? ? ? ? ?]. constructor; try done.
  - by apply (keys_fresh_insert user_id).
  - split; cbn; [lia|]. apply Forall_app. split; [done|].
    by apply Forall_singleton.
Qed.

Lemma db_ok_resolveSession sessionName uid d :
  db_ok d → db_ok (resolveSession sessionName uid d).2.
Proof.
  intros Hok. unfold resolveSession.
  destruct (select_sessions sessionName d); [|done].
  destruct Hok. constructor; try done.
  by apply (keys_fresh_insert session_id).
Qed.

Lemma db_ok_ensure_player_session uid sid d :
  db_ok d → db_ok (ensure_player_session uid sid d).
Proof.
  intros Hok. unfold ensure_player_session.
  destruct (filter _ _); [|done]. by destruct Hok.
Qed.

Lemma card_values_schema_of_length (values : list JsValue) :
  length values = 25%nat →
  dom (list_to_map (M := JsObj) (zip card_columns values))
  = list_to_set card_columns.
Proof.
  intros Hlen. rewrite dom_list_to_map_L, fst_zip; [done|].
  rewrite Hlen. reflexivity.
Qed.

Lemma card_values_schema (cardData : JsObj) :
  dom (list_to_map (M := JsObj)
         (zip card_columns (bind <$> card_values cardData)))
  = list_to_set card_columns.
Proof. rewrite dom_list_to_map_L. reflexivity. Qed.

Lemma db_ok_insert_card (cardData : JsObj) d :
  db_ok d → db_ok (insert_card (card_values cardData) d).2.
Proof.
  intros Hok. destruct Hok. constructor; try done.
  - by apply (keys_fresh_insert card_id).
  - unfold cards_schema. cbn. apply Forall_app. split; [done|].
    apply Forall_singleton. cbn [card_fields]. apply card_values_schema.
  - unfold cards_present in *. cbn.
    eapply Forall_impl; [done|]. intros pc Hpc. cbn in Hpc.
    apply Exists_app. by left.
Qed.

Lemma db_ok_insert_player_card uid cid sid d :
  Exists (λ c, card_id c = cid) (rows (cards d)) →
  db_ok d → db_ok (insert_player_card uid cid sid d).2.
Proof.
  intros Hc Hok. destruct Hok. constructor; try done.
  - by apply (keys_fresh_insert player_card_id).
  - unfold cards_present in *. cbn. apply Forall_app. split; [done|].
    by apply Forall_singleton.
Qed.

Lemma db_ok_insert_log sid uid cid ty descr d :
  db_ok d → db_ok (insert_log sid uid cid ty descr d).
Proof.
  intros Hok. destruct Hok as [? ? ? ? ? ? ? ? [Hs Hn]]. constructor; try done.
  - by apply (keys_fresh_insert log_id).
  - split; cbn.
    + apply StronglySorted_app. split; [|split; [done|]].
      * intros l1 l2 Hl1 ->%list_elem_of_singleton. cbn.
        by eapply Forall_forall in Hn.
      * apply StronglySorted_cons. split; constructor.
    + apply Forall_app. split; [done|]. by apply Forall_singleton.
Qed.

Lemma db_ok_update_player_card loc slot act playerCardId uid sid d :
  db_ok d →
  db_ok (update_player_card loc slot act playerCardId uid sid d).2.
Proof.
  intros Hok. destruct Hok. constructor; try done.
  - by apply (keys_fresh_update player_card_id).
  - unfold cards_present in *. cbn. apply Forall_fmap.
    eapply Forall_impl; [done|]. intros pc Hpc. cbn.
    by destruct (decide (owned_in playerCardId uid sid pc)).
Qed.

Lemma db_ok_refetch_log_broadcast sock sessionId uid userId playerCardId
    oldLocation fields missing action verb dest ev d :
  db_ok d →
  db_ok (refetch_log_broadcast sock sessionId uid userId playerCardId
           oldLocation fields missing action verb dest ev d).1.
Proof.
  intros Hok. unfold refetch_log_broadcast.
  destruct (select_player_cards_join _ d) as [|[pc c] l]; [done|].
  by apply db_ok_insert_log.
Qed.

Lemma db_ok_tick d : db_ok d → db_ok (tick d).
Proof.
  intros Hok. destruct Hok as [? ? ? ? ? ? ? ? [Hs Hn]]. constructor; try done.
  split; [done|]. cbn. eapply Forall_impl; [done|]. cbn. intros; lia.
Qed.

Lemma db_ok_empty : db_ok empty_db.
Proof.
  constructor; try (split; cbn; constructor); constructor.
Qed.

(** createCard in terms of its statements. *)
Lemma createCard_unfold sid userId (cardData : JsObj) d :
  createCard sid userId cardData d
  = let ru := resolveUser userId d in
    let rc := insert_card (card_values cardData) ru.2 in
    let rp := insert_player_card ru.1 rc.1 sid rc.2 in
    (insert_log sid ru.1 rc.1 "Card Created"
       (userId +:+ " created card " +:+ dquote
          +:+ to_string (get cardData "card_name") +:+ dquote) rp.2,
     [ mkEmit (ToRoom sid) "server:cardCreated"
         (PCard (fullNewCard rc.1 rp.1 userId cardData)) ]).
Proof. unfold createCard. by destruct (resolveUser userId d). Qed.

Lemma db_ok_createCard sid userId (cardData : JsObj) d :
  db_ok d → db_ok (createCard sid userId cardData d).1.
Proof.
  intros Hok. rewrite createCard_unfold. cbn zeta. cbn [fst].
  apply db_ok_insert_log, db_ok_insert_player_card.
  - cbn. apply Exists_app. right. by constructor.
  - by apply db_ok_insert_card, db_ok_resolveUser.
Qed.

Lemma db_ok_moveCard sock sessionId userId playerCardId oldLocation
    destinationLocation destinationSlotId isActive d :
  db_ok d →
  db_ok (moveCard sock sessionId userId playerCardId oldLocation
           destinationLocation destinationSlotId isActive d).1.
Proof.
  intros Hok. unfold moveCard.
  destruct (lookupUser userId d) as [uid|]; [|done].
  pose proof (db_ok_update_player_card destinationLocation destinationSlotId
                isActive playerCardId uid sessionId d Hok) as Hok1.
  destruct (update_player_card _ _ _ _ _ _ d) as [[|n] d1]; [done|].
  by apply db_ok_refetch_log_broadcast.
Qed.

Lemma db_ok_playCardAction sock sessionId userId playerCardId oldLocation d :
  db_ok d →
  db_ok (playCardAction sock sessionId userId playerCardId oldLocation d).1.
Proof.
  intros Hok. unfold playCardAction.
  destruct (lookupUser userId d) as [uid|]; [|done].
  pose proof (db_ok_update_player_card "DiscardPile" None false
                playerCardId uid sessionId d Hok) as Hok1.
  destruct (update_player_card _ _ _ _ _ _ d) as [[|n] d1]; [done|].
  by apply db_ok_refetch_log_broadcast.
Qed.

Lemma db_ok_joinGame sock sessionName userId w :
  db_ok (db w) → db_ok (db (joinGame sock sessionName userId w).1).
Proof.
  intros Hok. rewrite joinGame_unfold. cbn zeta. cbn [fst db].
  by apply db_ok_ensure_player_session, db_ok_resolveSession,
    db_ok_resolveUser.
Qed.

Lemma db_ok_step s w : db_ok (db w) → db_ok (db (step s w).1).
Proof.
  intros Hok. destruct s as [sock req|]; [|by apply db_ok_tick].
  destruct req; cbn [step handle on_db fst db].
  - by apply db_ok_joinGame.
  - by apply db_ok_createCard.
  - by apply db_ok_moveCard.
  - by apply db_ok_playCardAction.
  - done.
Qed.

Lemma db_ok_run steps w : db_ok (db w) → db_ok (db (run steps w).1).
Proof.
  revert w. induction steps as [|s steps IH]; intros w Hok; [done|].
  cbn [run]. cbn zeta. cbn [fst]. by apply IH, db_ok_step.
Qed.

(** X4. From the empty store, whatever messages arrive on whatever
    connections and however the clock advances in between, the store stays
    consistent: in users, game_sessions, cards, player_cards and
    combat_log the ids are pairwise distinct and below the next generated
    id; user ids are positive; every card definition has the columns of the INSERT statement;
    every instance refers to a stored definition; and the combat log is in
    the order of its timestamps, none ahead of the clock. *)
Theorem run_keeps_store_consistent steps :
  db_ok (db (run steps empty_world).1).
Proof. apply db_ok_run, db_ok_empty. Qed.

End consistency.
(** ** Rows are found by their key *)

Section unique_keys.

Context {A : Type} (key : A → Z).

Lemma key_inj_on l x y :
  NoDup (key <$> l) → x ∈ l → y ∈ l → key x = key y → x = y.
Proof.
  induction l as [|a l IH]; intros Hnd Hx Hy Hk; [by apply elem_of_nil in Hx|].
  rewrite fmap_cons in Hnd. apply NoDup_cons in Hnd as [Ha Hnd].
  apply elem_of_cons in Hx as [->|Hx]; apply elem_of_cons in Hy as [->|Hy].
  - done.
  - exfalso. apply Ha. rewrite Hk. apply list_elem_of_fmap. by exists y.
  - exfalso. apply Ha. rewrite <- Hk. apply list_elem_of_fmap. by exists x.
  - by apply IH.
Qed.

Lemma filter_unique_key (P : A → Prop) `{!∀ x, Decision (P x)} l x :
  NoDup (key <$> l) → x ∈ l → P x →
  (∀ y, y ∈ l → P y → key y = key x) →
  filter P l = [x].
Proof.
  intros Hnd Hx HP Huniq.
  assert (∀ y, y ∈ l → P y → y = x) as Hall
    by (intros y Hy HPy; apply (key_inj_on l); auto).
  clear Huniq. induction l as [|a l IH]; [by apply elem_of_nil in Hx|].
  rewrite fmap_cons in Hnd. apply NoDup_cons in Hnd as [Ha Hnd].
  rewrite filter_cons. destruct (decide (P a)) as [HPa|HPa].
  - assert (a = x) as -> by (apply Hall; [apply list_elem_of_here|done]).
    f_equal. destruct (filter P l) as [|b k] eqn:Hf; [done|]. exfalso.
    assert (b ∈ filter P l) as [HPb Hb]%list_elem_of_filter
      by (rewrite Hf; apply list_elem_of_here).
    assert (b = x) as -> by (apply Hall; [by apply list_elem_of_further|done]).
    apply Ha. apply list_elem_of_fmap. by exists x.
  - apply elem_of_cons in Hx as [->|Hx]; [done|].
    apply IH; [done..|]. intros y Hy. apply Hall. by apply list_elem_of_further.
Qed.

End unique_keys.

(** ** A successful move *)

Section move_success.

Import Part000.

(** The row of the refetch: in a consistent store the instance with a
    given id is joined with exactly one definition. *)
Lemma refetch_unique playerCardId d pc :
  db_ok d → pc ∈ rows (player_cards d) → player_card_id pc = playerCardId →
  ∃ c, c ∈ rows (cards d) ∧ card_id c = pc_card_id pc
       ∧ dom (card_fields c) = list_to_set card_columns
       ∧ select_player_cards_join (λ pc, player_card_id pc = playerCardId) d
         = [(pc, c)].
Proof.
  intros Hok Hpc Hid.
  pose proof (ok_present d Hok) as Hpres.
  eapply Forall_forall in Hpres; [|exact Hpc].
  apply Exists_exists in Hpres as (c & Hc & Hcid).
  exists c. split; [done|]. split; [done|]. split.
  { pose proof (ok_schema d Hok) as Hsch.
    by eapply Forall_forall in Hsch. }
  unfold select_player_cards_join.
  rewrite (filter_unique_key player_card_id _ _ pc); try done.
  - cbn. rewrite (filter_unique_key card_id _ _ c); try done.
    + apply (ok_cards d Hok).
    + intros y _ Hy. congruence.
  - apply (ok_player_cards d Hok).
  - intros y _ Hy. congruence.
Qed.

Lemma joined_get_card_id pc c :
  get (joined_obj pc c) "card_id" = JNum (card_id c).
Proof.
  unfold get, joined_obj, card_obj.
  by erewrite lookup_union_Some_l by apply lookup_insert_eq.
Qed.

(** A column of the definition is read from the definition. *)
Lemma joined_get_column pc c k :
  dom (card_fields c) = list_to_set card_columns → k ∈ card_columns →
  get (joined_obj pc c) k = get (card_fields c) k.
Proof.
  intros Hdom Hk.
  assert (k ≠ "card_id") as Hne.
  { intros ->. revert Hk. by apply (bool_decide_unpack _). }
  assert (is_Some (card_fields c !! k)) as [v Hv].
  { apply elem_of_dom. rewrite Hdom. by apply elem_of_list_to_set. }
  unfold get, joined_obj, card_obj.
  erewrite lookup_union_Some_l; [by rewrite Hv|].
  by rewrite lookup_insert_ne.
Qed.

(** Any other property is read from the instance. *)
Lemma joined_get_other pc c k :
  dom (card_fields c) = list_to_set card_columns →
  k ∉ card_columns → k ≠ "card_id" →
  get (joined_obj pc c) k = get (player_card_obj pc) k.
Proof.
  intros Hdom Hk Hne.
  assert (card_fields c !! k = None) as Hnone.
  { apply not_elem_of_dom. rewrite Hdom. by rewrite elem_of_list_to_set. }
  unfold get, joined_obj, card_obj.
  by rewrite lookup_union_r by (by rewrite lookup_insert_ne).
Qed.

Lemma table_db_ok : db_ok Scenario.table_db.
Proof.
  constructor.
  - split; apply (bool_decide_unpack _); vm_compute; exact I.
  - split; [done|]. apply (bool_decide_unpack _); vm_compute; exact I.
  - split; apply (bool_decide_unpack _); vm_compute; exact I.
  - split; apply (bool_decide_unpack _); vm_compute; exact I.
  - split; apply (bool_decide_unpack _); vm_compute; exact I.
  - split; constructor.
  - apply Forall_singleton. apply card_values_schema_of_length. reflexivity.
  - apply (bool_decide_unpack _); vm_compute; exact I.
  - split; constructor.
Qed.

Lemma refetch_log_broadcast_found sock sessionId uid userId playerCardId
    oldLocation fields missing action verb dest ev d pc :
  db_ok d → pc ∈ rows (player_cards d) → player_card_id pc = playerCardId →
  ∃ c, c ∈ rows (cards d) ∧ card_id c = pc_card_id pc
       ∧ dom (card_fields c) = list_to_set card_columns
       ∧ let card :=
           obj (pick fields (joined_obj pc c)
                ++ [("ownerId", JStr userId); ("oldLocation", JStr oldLocation)]) in
         refetch_log_broadcast sock sessionId uid userId playerCardId
           oldLocation fields missing action verb dest ev d
         = (insert_log sessionId uid (card_id c) action
              (userId +:+ verb +:+ dquote +:+ to_string (get card "card_name")
                 +:+ dquote +:+ " from " +:+ oldLocation +:+ " to " +:+ dest) d,
            [mkEmit (ToRoom sessionId) ev (PCard card)]).
Proof.
  intros Hok Hpc Hid.
  destruct (refetch_unique playerCardId d pc Hok Hpc Hid)
    as (c & Hc & Hcid & Hdom & Hsel).
  exists c. split; [done|]. split; [done|]. split; [done|].
  cbn zeta. unfold refetch_log_broadcast. by rewrite Hsel.
Qed.

(** The instance as an UPDATE of moveCard or playCardAction rewrites it. *)
Lemma update_player_card_hit loc slot act playerCardId uid sid d pc :
  pc ∈ rows (player_cards d) → owned_in playerCardId uid sid pc →
  ∃ n d1,
    update_player_card loc slot act playerCardId uid sid d = (S n, d1)
    ∧ d1 = (update_player_card loc slot act playerCardId uid sid d).2
    ∧ mkPlayerCard playerCardId uid (pc_card_id pc) sid loc slot act
        ∈ rows (player_cards d1).
Proof.
  intros Hpc Hown.
  pose proof (update_player_card_count loc slot act playerCardId uid sid d)
    as Hn.
  pose proof (update_player_card_rows loc slot act playerCardId uid sid d)
    as Hrows.
  destruct (update_player_card loc slot act playerCardId uid sid d)
    as [n d1]. cbn [fst snd] in *.
  assert (pc ∈ filter (owned_in playerCardId uid sid) (rows (player_cards d)))
    as Hf by (by apply list_elem_of_filter).
  destruct n as [|n].
  { destruct (filter _ _); [by apply elem_of_nil in Hf|done]. }
  exists n, d1. split; [done|]. split; [done|].
  rewrite Hrows. apply list_elem_of_fmap. exists pc. split; [|done].
  rewrite decide_True by done. by destruct Hown as (<- & <- & <-).
Qed.

Lemma moved_payload_reads (row : JsObj) userId oldLocation :
  let card :=
    obj (pick moved_card_fields row
         ++ [("ownerId", JStr userId); ("oldLocation", JStr oldLocation)]) in
  get card "card_id" = get row "card_id"
  ∧ get card "player_card_id" = get row "player_card_id"
  ∧ get card "ownerId" = JStr userId
  ∧ get card "location" = get row "location"
  ∧ get card "slot_id" = get row "slot_id"
  ∧ get card "oldLocation" = JStr oldLocation
  ∧ get card "card_name" = get row "card_name"
  ∧ get card "is_active" = get row "is_active"
  ∧ get card "card_suit_might_modifier" = get row "card_suit_might_modifier"
  ∧ get card "card_suit_agility_modifier"
    = get row "card_suit_agility_modifier"
  ∧ get card "card_suit_guts_modifier" = get row "card_guts_modifier"
  ∧ get card "card_suit_intellect_modifier" = get row "card_intellect_modifier"
  ∧ get card "card_suit_rally_modifier" = get row "card_rally_modifier".
Proof. cbn zeta. repeat split; reflexivity. Qed.

Lemma played_payload_reads (row : JsObj) userId oldLocation :
  let card :=
    obj (pick played_card_fields row
         ++ [("ownerId", JStr userId); ("oldLocation", JStr oldLocation)]) in
  get card "card_id" = get row "card_id"
  ∧ get card "player_card_id" = get row "player_card_id"
  ∧ get card "ownerId" = JStr userId
  ∧ get card "location" = get row "location"
  ∧ get card "slot_id" = get row "slot_id"
  ∧ get card "oldLocation" = JStr oldLocation
  ∧ get card "card_name" = get row "card_name"
  ∧ get card "is_active" = get row "is_active"
  ∧ get card "card_suit_might_modifier" = get row "card_suit_might_modifier"
  ∧ get card "card_suit_agility_modifier" = get row "card_agility_modifier"
  ∧ get card "card_suit_guts_modifier" = get row "card_guts_modifier"
  ∧ get card "card_suit_intellect_modifier" = get row "card_intellect_modifier"
  ∧ get card "card_suit_rally_modifier" = get row "card_rally_modifier".
Proof. cbn zeta. repeat split; reflexivity. Qed.

(** X5. In a consistent store, when the username resolves to [uid] and
    the instance with the requested id is owned by [uid] in the supplied
    session, moveCard rewrites the instance, appends one "Card Moved" row
    to the combat log -- session, user id, the id of the instance's card,
    and a description built from the username, the stored card name and
    the two zone names -- and emits one [server:cardMoved] to the room of
    the session. The payload names the instance and its card, the
    username as owner, the new zone and slot, the stored card name and the
    prior zone as the caller gave it. *)
Theorem moveCard_succeeds_for_owner sock sessionId userId playerCardId
    oldLocation destinationLocation destinationSlotId isActive d uid pc :
  db_ok d → lookupUser userId d = Some uid →
  pc ∈ rows (player_cards d) → owned_in playerCardId uid sessionId pc →
  ∃ c card,
    c ∈ rows (cards d) ∧ card_id c = pc_card_id pc
    ∧ moveCard sock sessionId userId playerCardId oldLocation
               destinationLocation destinationSlotId isActive d
      = (insert_log sessionId uid (card_id c) "Card Moved"
           (userId +:+ " moved card " +:+ dquote
              +:+ to_string (get (card_fields c) "card_name") +:+ dquote
              +:+ " from " +:+ oldLocation +:+ " to " +:+ destinationLocation)
           (update_player_card destinationLocation destinationSlotId isActive
                               playerCardId uid sessionId d).2,
         [mkEmit (ToRoom sessionId) "server:cardMoved" (PCard card)])
    ∧ get card "player_card_id" = JNum playerCardId
    ∧ get card "card_id" = JNum (card_id c)
    ∧ get card "ownerId" = JStr userId
    ∧ get card "location" = JStr destinationLocation
    ∧ get card "slot_id" = of_opt_num destinationSlotId
    ∧ get card "oldLocation" = JStr oldLocation
    ∧ get card "card_name" = get (card_fields c) "card_name".
Proof.
  intros Hok Hu Hpc Hown.
  destruct (update_player_card_hit destinationLocation destinationSlotId
              isActive playerCardId uid sessionId d pc Hpc Hown)
    as (n & d1 & Hup & Hd1 & Hpc').
  pose proof (db_ok_update_player_card destinationLocation destinationSlotId
                isActive playerCardId uid sessionId d Hok) as Hok1.
  rewrite <- Hd1 in Hok1 |- *.
  destruct (refetch_log_broadcast_found sock sessionId uid userId playerCardId
              oldLocation moved_card_fields
              "Failed to retrieve moved card data." "Card Moved"
              " moved card " destinationLocation "server:cardMoved"
              d1 _ Hok1 Hpc' eq_refl)
    as (c & Hc & Hcid & Hdom & Hre).
  assert (cards d1 = cards d) as Hcards by (by rewrite Hd1).
  rewrite Hcards in Hc. cbn zeta in Hre.
  set (pc' := mkPlayerCard _ _ _ _ _ _ _) in *.
  destruct (moved_payload_reads (joined_obj pc' c) userId oldLocation)
    as (Hr1 & Hr2 & Hr3 & Hr4 & Hr5 & Hr6 & Hr7 & _).
  set (card := obj _) in *.
  assert (get card "card_name" = get (card_fields c) "card_name") as Hname.
  { rewrite Hr7. apply joined_get_column; [done|].
    apply (bool_decide_unpack _); vm_compute; exact I. }
  exists c, card. split; [done|]. split; [done|]. split.
  { unfold moveCard. rewrite Hu, Hup, Hre. by rewrite Hname. }
  split.
  { rewrite Hr2, joined_get_other; [done|done|..].
    - apply (bool_decide_unpack _); vm_compute; exact I.
    - done. }
  split; [by rewrite Hr1, joined_get_card_id|]. split; [done|].
  split.
  { rewrite Hr4, joined_get_other; [done|done|..].
    - apply (bool_decide_unpack _); vm_compute; exact I.
    - done. }
  split.
  { rewrite Hr5, joined_get_other; [done|done|..].
    - apply (bool_decide_unpack _); vm_compute; exact I.
    - done. }
  split; done.
Qed.

Lemma moveCard_succeeds_for_owner_alice :
  ∃ c card,
    c ∈ rows (cards Scenario.table_db) ∧ card_id c = 1
    ∧ moveCard 7%nat 1 "alice" 1 "battlefield" "hand" None false
               Scenario.table_db
      = (insert_log 1 1 (card_id c) "Card Moved"
           ("alice" +:+ " moved card " +:+ dquote
              +:+ to_string (get (card_fields c) "card_name") +:+ dquote
              +:+ " from " +:+ "battlefield" +:+ " to " +:+ "hand")
           (update_player_card "hand" None false 1 1 1 Scenario.table_db).2,
         [mkEmit (ToRoom 1) "server:cardMoved" (PCard card)])
    ∧ get card "player_card_id" = JNum 1
    ∧ get card "card_id" = JNum (card_id c)
    ∧ get card "ownerId" = JStr "alice"
    ∧ get card "location" = JStr "hand"
    ∧ get card "slot_id" = of_opt_num None
    ∧ get card "oldLocation" = JStr "battlefield"
    ∧ get card "card_name" = get (card_fields c) "card_name".
Proof.
  apply (moveCard_succeeds_for_owner 7%nat 1 "alice" 1 "battlefield" "hand"
           None false Scenario.table_db 1
           (mkPlayerCard 1 1 1 1 "battlefield" (Some 3) true)).
  - exact table_db_ok.
  - vm_compute. reflexivity.
  - vm_compute. apply list_elem_of_here.
  - vm_compute. auto.
Defined.

End move_success.

(** ** What the move and play broadcasts carry *)

Section move_play_payload.

Import Part000.

Ltac by_computation := apply (bool_decide_unpack _); vm_compute; exact I.

Lemma moveCard_found sock sessionId userId playerCardId oldLocation
    destinationLocation destinationSlotId isActive d uid pc :
  db_ok d → lookupUser userId d = Some uid →
  pc ∈ rows (player_cards d) → owned_in playerCardId uid sessionId pc →
  ∃ c, c ∈ rows (cards d) ∧ card_id c = pc_card_id pc
       ∧ dom (card_fields c) = list_to_set card_columns
       ∧ (moveCard sock sessionId userId playerCardId oldLocation
                   destinationLocation destinationSlotId isActive d).2
         = [ mkEmit (ToRoom sessionId) "server:cardMoved"
               (PCard
                  (obj (pick moved_card_fields
                          (joined_obj
                             (mkPlayerCard playerCardId uid (pc_card_id pc)
                                sessionId destinationLocation
                                destinationSlotId isActive) c)
                        ++ [ ("ownerId", JStr userId);
                             ("oldLocation", JStr oldLocation) ]))) ].
Proof.
  intros Hok Hu Hpc Hown.
  destruct (update_player_card_hit destinationLocation destinationSlotId
              isActive playerCardId uid sessionId d pc Hpc Hown)
    as (n & d1 & Hup & Hd1 & Hpc').
  pose proof (db_ok_update_player_card destinationLocation destinationSlotId
                isActive playerCardId uid sessionId d Hok) as Hok1.
  rewrite <- Hd1 in Hok1.
  destruct (refetch_log_broadcast_found sock sessionId uid userId playerCardId
              oldLocation moved_card_fields
              "Failed to retrieve moved card data." "Card Moved"
              " moved card " destinationLocation "server:cardMoved"
              d1 _ Hok1 Hpc' eq_refl)
    as (c & Hc & Hcid & Hdom & Hre).
  assert (cards d1 = cards d) as Hcards by (by rewrite Hd1).
  rewrite Hcards in Hc. cbn zeta in Hre.
  exists c. split; [done|]. split; [done|]. split; [done|].
  unfold moveCard. by rewrite Hu, Hup, Hre.
Qed.

Lemma playCardAction_found sock sessionId userId playerCardId oldLocation
    d uid pc :
  db_ok d → lookupUser userId d = Some uid →
  pc ∈ rows (player_cards d) → owned_in playerCardId uid sessionId pc →
  ∃ c, c ∈ rows (cards d) ∧ card_id c = pc_card_id pc
       ∧ dom (card_fields c) = list_to_set card_columns
       ∧ let card :=
           obj (pick played_card_fields
                  (joined_obj
                     (mkPlayerCard playerCardId uid (pc_card_id pc) sessionId
                        "DiscardPile" None false) c)
                ++ [ ("ownerId", JStr userId);
                     ("oldLocation", JStr oldLocation) ]) in
         playCardAction sock sessionId userId playerCardId oldLocation d
         = (insert_log sessionId uid (card_id c) "Card Played"
              (userId +:+ " played card " +:+ dquote
                 +:+ to_string (get card "card_name") +:+ dquote
                 +:+ " from " +:+ oldLocation +:+ " to " +:+ "DiscardPile")
              (update_player_card "DiscardPile" None false
                                  playerCardId uid sessionId d).2,
            [mkEmit (ToRoom sessionId) "server:cardPlayed" (PCard card)]).
Proof.
  intros Hok Hu Hpc Hown.
  destruct (update_player_card_hit "DiscardPile" None false
              playerCardId uid sessionId d pc Hpc Hown)
    as (n & d1 & Hup & Hd1 & Hpc').
  pose proof (db_ok_update_player_card "DiscardPile" None false
                playerCardId uid sessionId d Hok) as Hok1.
  rewrite <- Hd1 in Hok1 |- *.
  destruct (refetch_log_broadcast_found sock sessionId uid userId playerCardId
              oldLocation played_card_fields
              "Failed to retrieve played card data." "Card Played"
              " played card " "DiscardPile" "server:cardPlayed"
              d1 _ Hok1 Hpc' eq_refl)
    as (c & Hc & Hcid & Hdom & Hre).
  assert (cards d1 = cards d) as Hcards by (by rewrite Hd1).
  rewrite Hcards in Hc. cbn zeta in Hre.
  exists c. split; [done|]. split; [done|]. split; [done|].
  cbn zeta. unfold playCardAction. by rewrite Hu, Hup, Hre.
Qed.

(** X6. The [is_active] of a [server:cardMoved] broadcast is not the
    active flag the move has just stored for the instance: the result row
    of [SELECT pc.*, c.*] has one [is_active], that of the card
    definition, and this is what the payload carries. Of the five suit
    modifiers the payload has the stored might and agility; guts,
    intellect and rally are read from properties the row does not have and
    are [undefined]. *)
Theorem moveCard_broadcast_definition_flag_and_suit_modifiers
    sock sessionId userId playerCardId oldLocation destinationLocation
    destinationSlotId isActive d uid pc :
  db_ok d → lookupUser userId d = Some uid →
  pc ∈ rows (player_cards d) → owned_in playerCardId uid sessionId pc →
  ∃ c card,
    c ∈ rows (cards d) ∧ card_id c = pc_card_id pc
    ∧ (moveCard sock sessionId userId playerCardId oldLocation
                destinationLocation destinationSlotId isActive d).2
      = [mkEmit (ToRoom sessionId) "server:cardMoved" (PCard card)]
    ∧ get card "is_active" = get (card_fields c) "is_active"
    ∧ get card "card_suit_might_modifier"
      = get (card_fields c) "card_suit_might_modifier"
    ∧ get card "card_suit_agility_modifier"
      = get (card_fields c) "card_suit_agility_modifier"
    ∧ get card "card_suit_guts_modifier" = JUndefined
    ∧ get card "card_suit_intellect_modifier" = JUndefined
    ∧ get card "card_suit_rally_modifier" = JUndefined.
Proof.
  intros Hok Hu Hpc Hown.
  destruct (moveCard_found sock sessionId userId playerCardId oldLocation
              destinationLocation destinationSlotId isActive d uid pc
              Hok Hu Hpc Hown) as (c & Hc & Hcid & Hdom & Hemit).
  set (pc' := mkPlayerCard _ _ _ _ _ _ _) in *.
  destruct (moved_payload_reads (joined_obj pc' c) userId oldLocation)
    as (_ & _ & _ & _ & _ & _ & _ & Ha & Hm & Hag & Hg & Hi & Hr).
  set (card := obj _) in *.
  exists c, card. split; [done|]. split; [done|]. split; [done|].
  split; [rewrite Ha; apply joined_get_column; [done|by_computation]|].
  split; [rewrite Hm; apply joined_get_column; [done|by_computation]|].
  split; [rewrite Hag; apply joined_get_column; [done|by_computation]|].
  split; [rewrite Hg, joined_get_other; [done|done|by_computation|done]|].
  split; [rewrite Hi, joined_get_other; [done|done|by_computation|done]|].
  rewrite Hr, joined_get_other; [done|done|by_computation|done].
Qed.

Lemma moveCard_broadcast_definition_flag_and_suit_modifiers_alice :
  ∃ c card,
    c ∈ rows (cards Scenario.table_db) ∧ card_id c = 1
    ∧ (moveCard 7%nat 1 "alice" 1 "battlefield" "hand" None false
                Scenario.table_db).2
      = [mkEmit (ToRoom 1) "server:cardMoved" (PCard card)]
    ∧ get card "is_active" = get (card_fields c) "is_active"
    ∧ get card "card_suit_might_modifier"
      = get (card_fields c) "card_suit_might_modifier"
    ∧ get card "card_suit_agility_modifier"
      = get (card_fields c) "card_suit_agility_modifier"
    ∧ get card "card_suit_guts_modifier" = JUndefined
    ∧ get card "card_suit_intellect_modifier" = JUndefined
    ∧ get card "card_suit_rally_modifier" = JUndefined.
Proof.
  apply (moveCard_broadcast_definition_flag_and_suit_modifiers 7%nat 1 "alice"
           1 "battlefield" "hand" None false Scenario.table_db 1
           (mkPlayerCard 1 1 1 1 "battlefield" (Some 3) true)).
  - exact table_db_ok.
  - vm_compute. reflexivity.
  - vm_compute. apply list_elem_of_here.
  - vm_compute. auto.
Defined.

(** X7. In a consistent store, a play-card-action on an instance the
    resolved user owns in the supplied session appends one "Card Played"
    log row and emits one [server:cardPlayed] to the room of the session.
    The payload has location "DiscardPile", no slot and the prior zone as
    supplied; its [is_active] is the active flag of the card definition,
    not the [false] written to the instance; and of the suit modifiers
    only might is the stored one: agility, guts, intellect and rally are
    [undefined]. *)
Theorem playCardAction_succeeds_for_owner sock sessionId userId playerCardId
    oldLocation d uid pc :
  db_ok d → lookupUser userId d = Some uid →
  pc ∈ rows (player_cards d) → owned_in playerCardId uid sessionId pc →
  ∃ c card,
    c ∈ rows (cards d) ∧ card_id c = pc_card_id pc
    ∧ playCardAction sock sessionId userId playerCardId oldLocation d
      = (insert_log sessionId uid (card_id c) "Card Played"
           (userId +:+ " played card " +:+ dquote
              +:+ to_string (get (card_fields c) "card_name") +:+ dquote
              +:+ " from " +:+ oldLocation +:+ " to " +:+ "DiscardPile")
           (update_player_card "DiscardPile" None false
                               playerCardId uid sessionId d).2,
         [mkEmit (ToRoom sessionId) "server:cardPlayed" (PCard card)])
    ∧ get card "player_card_id" = JNum playerCardId
    ∧ get card "ownerId" = JStr userId
    ∧ get card "location" = JStr "DiscardPile"
    ∧ get card "slot_id" = JNull
    ∧ get card "oldLocation" = JStr oldLocation
    ∧ get card "is_active" = get (card_fields c) "is_active"
    ∧ get card "card_suit_might_modifier"
      = get (card_fields c) "card_suit_might_modifier"
    ∧ get card "card_suit_agility_modifier" = JUndefined
    ∧ get card "card_suit_guts_modifier" = JUndefined
    ∧ get card "card_suit_intellect_modifier" = JUndefined
    ∧ get card "card_suit_rally_modifier" = JUndefined.
Proof.
  intros Hok Hu Hpc Hown.
  destruct (playCardAction_found sock sessionId userId playerCardId
              oldLocation d uid pc Hok Hu Hpc Hown)
    as (c & Hc & Hcid & Hdom & Hplay).
  cbn zeta in Hplay.
  set (pc' := mkPlayerCard _ _ _ _ _ _ _) in *.
  destruct (played_payload_reads (joined_obj pc' c) userId oldLocation)
    as (_ & Hp & Ho & Hl & Hs & Hol & Hn & Ha & Hm & Hag & Hg & Hi & Hr).
  set (card := obj _) in *.
  assert (get card "card_name" = get (card_fields c) "card_name") as Hname.
  { rewrite Hn. apply joined_get_column; [done|by_computation]. }
  exists c, card. split; [done|]. split; [done|].
  split; [by rewrite Hplay, Hname|].
  split; [rewrite Hp, joined_get_other; [done|done|by_computation|done]|].
  split; [done|].
  split; [rewrite Hl, joined_get_other; [done|done|by_computation|done]|].
  split; [rewrite Hs, joined_get_other; [done|done|by_computation|done]|].
  split; [done|].
  split; [rewrite Ha; apply joined_get_column; [done|by_computation]|].
  split; [rewrite Hm; apply joined_get_column; [done|by_computation]|].
  split; [rewrite Hag, joined_get_other; [done|done|by_computation|done]|].
  split; [rewrite Hg, joined_get_other; [done|done|by_computation|done]|].
  split; [rewrite Hi, joined_get_other; [done|done|by_computation|done]|].
  rewrite Hr, joined_get_other; [done|done|by_computation|done].
Qed.

Lemma playCardAction_succeeds_for_owner_alice :
  ∃ c card,
    c ∈ rows (cards Scenario.table_db) ∧ card_id c = 1
    ∧ playCardAction 7%nat 1 "alice" 1 "battlefield" Scenario.table_db
      = (insert_log 1 1 (card_id c) "Card Played"
           ("alice" +:+ " played card " +:+ dquote
              +:+ to_string (get (card_fields c) "card_name") +:+ dquote
              +:+ " from " +:+ "battlefield" +:+ " to " +:+ "DiscardPile")
           (update_player_card "DiscardPile" None false 1 1 1
                               Scenario.table_db).2,
         [mkEmit (ToRoom 1) "server:cardPlayed" (PCard card)])
    ∧ get card "player_card_id" = JNum 1
    ∧ get card "ownerId" = JStr "alice"
    ∧ get card "location" = JStr "DiscardPile"
    ∧ get card "slot_id" = JNull
    ∧ get card "oldLocation" = JStr "battlefield"
    ∧ get card "is_active" = get (card_fields c) "is_active"
    ∧ get card "card_suit_might_modifier"
      = get (card_fields c) "card_suit_might_modifier"
    ∧ get card "card_suit_agility_modifier" = JUndefined
    ∧ get card "card_suit_guts_modifier" = JUndefined
    ∧ get card "card_suit_intellect_modifier" = JUndefined
    ∧ get card "card_suit_rally_modifier" = JUndefined.
Proof.
  apply (playCardAction_succeeds_for_owner 7%nat 1 "alice" 1 "battlefield"
           Scenario.table_db 1
           (mkPlayerCard 1 1 1 1 "battlefield" (Some 3) true)).
  - exact table_db_ok.
  - vm_compute. reflexivity.
  - vm_compute. apply list_elem_of_here.
  - vm_compute. auto.
Defined.

End move_play_payload.

(** ** What a move or a play changes, and what it leaves alone *)

Section move_play_frame.

Import Part000.

Lemma select_player_cards_join_elem (P : PlayerCardRow → Prop)
    `{!∀ x, Decision (P x)} d pc c :
  (pc, c) ∈ select_player_cards_join P d
  ↔ pc ∈ rows (player_cards d) ∧ P pc
    ∧ c ∈ rows (cards d) ∧ pc_card_id pc = card_id c.
Proof.
  unfold select_player_cards_join. rewrite list_elem_of_bind. split.
  - intros (pc' & Hin & [HP Hpc']%list_elem_of_filter).
    apply list_elem_of_bind in Hin as (c' & Hin & [Hcid Hc']%list_elem_of_filter).
    apply list_elem_of_singleton in Hin as [= -> ->]. done.
  - intros (Hpc & HP & Hc & Hcid). exists pc. split.
    + apply list_elem_of_bind. exists c. split.
      * by apply list_elem_of_singleton.
      * by apply list_elem_of_filter.
    + by apply list_elem_of_filter.
Qed.

(** The store after moveCard: untouched, updated, or updated and logged. *)
Lemma moveCard_store sock sessionId userId playerCardId oldLocation
    destinationLocation destinationSlotId isActive d :
  let r := moveCard sock sessionId userId playerCardId oldLocation
             destinationLocation destinationSlotId isActive d in
  (r.1 = d ∧ ∃ msg, r.2 = [emit_error sock msg])
  ∨ (∃ uid,
       lookupUser userId d = Some uid
       ∧ let d1 := (update_player_card destinationLocation destinationSlotId
                      isActive playerCardId uid sessionId d).2 in
         (r.1 = d1 ∧ r.2 = [emit_error sock "Failed to retrieve moved card data."])
         ∨ (∃ cid descr card,
              r.1 = insert_log sessionId uid cid "Card Moved" descr d1
              ∧ r.2 = [mkEmit (ToRoom sessionId) "server:cardMoved"
                         (PCard card)])).
Proof.
  cbn zeta. unfold moveCard.
  destruct (lookupUser userId d) as [uid|] eqn:Hu; [|left; eauto].
  destruct (update_player_card _ _ _ _ _ _ d) as [n d1] eqn:Hup.
  destruct n as [|n].
  - left. split; [|eauto]. cbn.
    pose proof (update_player_card_count destinationLocation
                  destinationSlotId isActive playerCardId uid sessionId d)
      as Hn.
    rewrite Hup in Hn. cbn in Hn.
    rewrite update_player_card_nomatch in Hup.
    + congruence.
    + by destruct (filter _ _).
  - right. exists uid. split; [done|]. cbn zeta. rewrite ?Hup. cbn [snd].
    unfold refetch_log_broadcast.
    destruct (select_player_cards_join _ d1) as [|[pc c] l].
    + left. done.
    + right. eauto.
Qed.

Lemma playCardAction_store sock sessionId userId playerCardId oldLocation d :
  let r := playCardAction sock sessionId userId playerCardId oldLocation d in
  (r.1 = d ∧ ∃ msg, r.2 = [emit_error sock msg])
  ∨ (∃ uid,
       lookupUser userId d = Some uid
       ∧ let d1 := (update_player_card "DiscardPile" None false
                      playerCardId uid sessionId d).2 in
         (r.1 = d1 ∧ r.2 = [emit_error sock "Failed to retrieve played card data."])
         ∨ (∃ cid descr card,
              r.1 = insert_log sessionId uid cid "Card Played" descr d1
              ∧ r.2 = [mkEmit (ToRoom sessionId) "server:cardPlayed"
                         (PCard card)])).
Proof.
  cbn zeta. unfold playCardAction.
  destruct (lookupUser userId d) as [uid|] eqn:Hu; [|left; eauto].
  destruct (update_player_card _ _ _ _ _ _ d) as [n d1] eqn:Hup.
  destruct n as [|n].
  - left. split; [|eauto]. cbn.
    pose proof (update_player_card_count "DiscardPile" None false
                  playerCardId uid sessionId d) as Hn.
    rewrite Hup in Hn. cbn in Hn.
    rewrite update_player_card_nomatch in Hup.
    + congruence.
    + by destruct (filter _ _).
  - right. exists uid. split; [done|]. cbn zeta. rewrite ?Hup. cbn [snd].
    unfold refetch_log_broadcast.
    destruct (select_player_cards_join _ d1) as [|[pc c] l].
    + left. done.
    + right. eauto.
Qed.

(** X8. Every move-card and every play-card-action request is answered
    by exactly one emission. Either it is an [error] to the caller, and
    the combat log is as it was; or it is the broadcast
    ([server:cardMoved], [server:cardPlayed]) to the room named by the
    request's session id, and the combat log has grown by exactly one row:
    of that session, stamped with the clock of the store, of type
    "Card Moved" or "Card Played". *)
Theorem move_play_one_emission_one_log_row sock sessionId userId playerCardId
    oldLocation destinationLocation destinationSlotId isActive d :
  let rm := moveCard sock sessionId userId playerCardId oldLocation
              destinationLocation destinationSlotId isActive d in
  let rp := playCardAction sock sessionId userId playerCardId oldLocation d in
  ((combat_log rm.1 = combat_log d ∧ ∃ msg, rm.2 = [emit_error sock msg])
   ∨ (∃ uid cid descr card,
        rows (combat_log rm.1)
        = rows (combat_log d)
          ++ [mkLog (next_id (combat_log d)) sessionId uid cid
                    "Card Moved" descr (now d)]
        ∧ lookupUser userId d = Some uid
        ∧ rm.2 = [mkEmit (ToRoom sessionId) "server:cardMoved" (PCard card)]))
  ∧ ((combat_log rp.1 = combat_log d ∧ ∃ msg, rp.2 = [emit_error sock msg])
     ∨ (∃ uid cid descr card,
          rows (combat_log rp.1)
          = rows (combat_log d)
            ++ [mkLog (next_id (combat_log d)) sessionId uid cid
                      "Card Played" descr (now d)]
          ∧ lookupUser userId d = Some uid
          ∧ rp.2 = [mkEmit (ToRoom sessionId) "server:cardPlayed"
                      (PCard card)])).
Proof.
  cbn zeta. split.
  - destruct (moveCard_store sock sessionId userId playerCardId oldLocation
                destinationLocation destinationSlotId isActive d)
      as [[-> Hmsg]|(uid & Hu & [[-> ->]|(cid & descr & card & -> & ->)])].
    + left. done.
    + left. split; [done|eauto].
    + right. exists uid, cid, descr, card. done.
  - destruct (playCardAction_store sock sessionId userId playerCardId
                oldLocation d)
      as [[-> Hmsg]|(uid & Hu & [[-> ->]|(cid & descr & card & -> & ->)])].
    + left. done.
    + left. split; [done|eauto].
    + right. exists uid, cid, descr, card. done.
Qed.

(** X9. Whatever moveCard and playCardAction are sent, they add and
    remove no instance and never touch users, game_sessions, cards,
    player_sessions or the clock. Row by row, an instance keeps its id,
    owner, card and session; it keeps its zone, slot and active flag too
    unless it is the instance the request names, owned by the resolved
    user in the supplied session. *)
Theorem move_play_leave_other_rows sock sessionId userId playerCardId
    oldLocation destinationLocation destinationSlotId isActive d :
  let dm := (moveCard sock sessionId userId playerCardId oldLocation
               destinationLocation destinationSlotId isActive d).1 in
  let dp :=
    (playCardAction sock sessionId userId playerCardId oldLocation d).1 in
  let changed_only_if_owned (d' : Db) :=
    users d' = users d ∧ game_sessions d' = game_sessions d
    ∧ cards d' = cards d ∧ player_sessions d' = player_sessions d
    ∧ now d' = now d
    ∧ next_id (player_cards d') = next_id (player_cards d)
    ∧ Forall2 (λ old new,
                 identity new = identity old
                 ∧ (new = old
                    ∨ ∃ uid, lookupUser userId d = Some uid
                             ∧ owned_in playerCardId uid sessionId old))
              (rows (player_cards d)) (rows (player_cards d')) in
  changed_only_if_owned dm ∧ changed_only_if_owned dp.
Proof.
  cbn zeta.
  assert (∀ l : list PlayerCardRow,
            Forall2 (λ old new,
                       identity new = identity old
                       ∧ (new = old
                          ∨ ∃ uid, lookupUser userId d = Some uid
                                   ∧ owned_in playerCardId uid sessionId old))
                    l l) as Hrefl.
  { intros l. apply Forall2_same_length_lookup_2; [done|].
    intros i x y Hx Hy. assert (x = y) as -> by congruence. auto. }
  assert (∀ uid loc slot act,
            lookupUser userId d = Some uid →
            Forall2 (λ old new,
                       identity new = identity old
                       ∧ (new = old
                          ∨ ∃ uid, lookupUser userId d = Some uid
                                   ∧ owned_in playerCardId uid sessionId old))
                    (rows (player_cards d))
                    (rows (player_cards
                             (update_player_card loc slot act playerCardId
                                uid sessionId d).2))) as Hupd.
  { intros uid loc slot act Hu. rewrite update_player_card_rows.
    change (map ?g ?l) with (g <$> l). apply Forall2_fmap_r.
    apply Forall2_same_length_lookup_2; [done|].
    intros i x y Hx Hy. assert (x = y) as -> by congruence.
    unfold compose. cbn beta. case_decide; (split; [reflexivity|eauto]). }
  split.
  - destruct (moveCard_store sock sessionId userId playerCardId oldLocation
                destinationLocation destinationSlotId isActive d)
      as [[-> _]|(uid & Hu & [[-> _]|(cid & descr & card & -> & _)])].
    + repeat split; done.
    + repeat split; try done. by apply Hupd.
    + repeat split; try done. by apply Hupd.
  - destruct (playCardAction_store sock sessionId userId playerCardId
                oldLocation d)
      as [[-> _]|(uid & Hu & [[-> _]|(cid & descr & card & -> & _)])].
    + repeat split; done.
    + repeat split; try done. by apply Hupd.
    + repeat split; try done. by apply Hupd.
Qed.

End move_play_frame.

(** ** Edge and round trip of a move *)

Section move_edges.

Import Part000.

Lemma lookupUser_same_users userId d d' :
  users d' = users d → lookupUser userId d' = lookupUser userId d.
Proof. intros H. unfold lookupUser, select_users. by rewrite H. Qed.

(** X10. The statements of a move are not one transaction. When the
    instance the request names is owned by the resolved user in the
    supplied session but no card definition is stored for it, the UPDATE
    has already rewritten the instance when the refetch comes back empty:
    the caller is sent "Failed to retrieve moved card data.", nothing is
    logged or broadcast, and the store keeps the instance in its new zone,
    slot and active state. *)
Theorem moveCard_missing_definition_keeps_update sock sessionId userId
    playerCardId oldLocation destinationLocation destinationSlotId isActive
    d uid pc :
  lookupUser userId d = Some uid →
  pc ∈ rows (player_cards d) → owned_in playerCardId uid sessionId pc →
  (∀ pc' c, pc' ∈ rows (player_cards d) → player_card_id pc' = playerCardId →
            c ∈ rows (cards d) → card_id c ≠ pc_card_id pc') →
  let r := moveCard sock sessionId userId playerCardId oldLocation
             destinationLocation destinationSlotId isActive d in
  r.2 = [emit_error sock "Failed to retrieve moved card data."]
  ∧ mkPlayerCard playerCardId uid (pc_card_id pc) sessionId
                 destinationLocation destinationSlotId isActive
      ∈ rows (player_cards r.1)
  ∧ combat_log r.1 = combat_log d.
Proof.
  intros Hu Hpc Hown Hnone. cbn zeta.
  destruct (update_player_card_hit destinationLocation destinationSlotId
              isActive playerCardId uid sessionId d pc Hpc Hown)
    as (n & d1 & Hup & Hd1 & Hpc').
  unfold moveCard. rewrite Hu, Hup. unfold refetch_log_broadcast.
  destruct (select_player_cards_join _ d1) as [|[p c] l] eqn:Hsel.
  { cbn [fst snd]. split; [done|]. split; [done|]. by rewrite Hd1. }
  exfalso.
  assert ((p, c) ∈ select_player_cards_join
                     (λ pc, player_card_id pc = playerCardId) d1) as Hin
    by (rewrite Hsel; apply list_elem_of_here).
  apply select_player_cards_join_elem in Hin as (Hp & Hid & Hc & Hcid).
  rewrite Hd1, update_player_card_rows in Hp.
  apply list_elem_of_fmap in Hp as (r & -> & Hr).
  assert (cards d1 = cards d) as Hcards by (by rewrite Hd1).
  rewrite Hcards in Hc.
  apply (Hnone r c); [done| |done|].
  - by case_decide.
  - rewrite <- Hcid. by case_decide.
Qed.

Lemma moveCard_missing_definition_keeps_update_orphan :
  let r := moveCard 7%nat 1 "alice" 1 "battlefield" "hand" None false
             Replay.orphan_db in
  r.2 = [emit_error 7%nat "Failed to retrieve moved card data."]
  ∧ mkPlayerCard 1 1 1 1 "hand" None false ∈ rows (player_cards r.1)
  ∧ combat_log r.1 = combat_log Replay.orphan_db.
Proof.
  apply (moveCard_missing_definition_keeps_update 7%nat 1 "alice" 1
           "battlefield" "hand" None false Replay.orphan_db 1
           (mkPlayerCard 1 1 1 1 "battlefield" (Some 3) true)).
  - vm_compute. reflexivity.
  - vm_compute. apply list_elem_of_here.
  - vm_compute. auto.
  - intros pc' c _ _ Hc. vm_compute in Hc. by apply elem_of_nil in Hc.
Defined.

(** The store after a successful move. *)
Lemma moveCard_store_success sock sessionId userId playerCardId oldLocation
    destinationLocation destinationSlotId isActive d uid pc :
  db_ok d → lookupUser userId d = Some uid →
  pc ∈ rows (player_cards d) → owned_in playerCardId uid sessionId pc →
  ∃ cid descr,
    (moveCard sock sessionId userId playerCardId oldLocation
              destinationLocation destinationSlotId isActive d).1
    = insert_log sessionId uid cid "Card Moved" descr
        (update_player_card destinationLocation destinationSlotId isActive
                            playerCardId uid sessionId d).2.
Proof.
  intros Hok Hu Hpc Hown.
  destruct (moveCard_found sock sessionId userId playerCardId oldLocation
              destinationLocation destinationSlotId isActive d uid pc
              Hok Hu Hpc Hown) as (c & _ & _ & _ & Hemit).
  destruct (moveCard_store sock sessionId userId playerCardId oldLocation
              destinationLocation destinationSlotId isActive d)
    as [[_ [msg Hmsg]]|(uid' & Hu' & [[_ Hmsg]|(cid & descr & card & Hst & _)])].
  - rewrite Hmsg in Hemit. discriminate.
  - rewrite Hmsg in Hemit. discriminate.
  - assert (uid' = uid) as -> by congruence. eauto.
Qed.

(** X11. In a consistent store, a move by the owner followed by a move
    of the same instance back to the zone, slot and active flag it had
    leaves player_cards exactly as it was before the two moves; users and
    cards are untouched and the combat log has two more rows. *)
Theorem moveCard_and_back_restores_instances sock sessionId userId
    playerCardId oldLocation destinationLocation destinationSlotId isActive
    d uid pc :
  db_ok d → lookupUser userId d = Some uid →
  pc ∈ rows (player_cards d) → owned_in playerCardId uid sessionId pc →
  let d1 := (moveCard sock sessionId userId playerCardId oldLocation
               destinationLocation destinationSlotId isActive d).1 in
  let d2 := (moveCard sock sessionId userId playerCardId destinationLocation
               (location pc) (slot_id pc) (is_active pc) d1).1 in
  player_cards d2 = player_cards d
  ∧ users d2 = users d ∧ cards d2 = cards d
  ∧ length (rows (combat_log d2)) = S (S (length (rows (combat_log d)))).
Proof.
  intros Hok Hu Hpc Hown. cbn zeta.
  destruct (moveCard_store_success sock sessionId userId playerCardId
              oldLocation destinationLocation destinationSlotId isActive
              d uid pc Hok Hu Hpc Hown) as (cid1 & descr1 & Hd1).
  pose proof (db_ok_moveCard sock sessionId userId playerCardId oldLocation
                destinationLocation destinationSlotId isActive d Hok) as Hok1.
  set (d1 := (moveCard sock sessionId userId playerCardId oldLocation
                destinationLocation destinationSlotId isActive d).1) in *.
  assert (users d1 = users d) as Husers by (by rewrite Hd1).
  assert (lookupUser userId d1 = Some uid) as Hu1
    by (by rewrite (lookupUser_same_users _ d)).
  set (pc1 := mkPlayerCard playerCardId uid (pc_card_id pc) sessionId
                destinationLocation destinationSlotId isActive).
  assert (pc1 ∈ rows (player_cards d1)) as Hpc1.
  { rewrite Hd1. cbn [player_cards insert_log set_combat_log].
    rewrite update_player_card_rows. apply list_elem_of_fmap.
    exists pc. split; [|done]. rewrite decide_True by done.
    by destruct Hown as (<- & <- & <-). }
  assert (owned_in playerCardId uid sessionId pc1) as Hown1 by done.
  destruct (moveCard_store_success sock sessionId userId playerCardId
              destinationLocation (location pc) (slot_id pc) (is_active pc)
              d1 uid pc1 Hok1 Hu1 Hpc1 Hown1) as (cid2 & descr2 & ->).
  rewrite Hd1.
  split; [|split; [done|split; [done|]]].
  - cbn [player_cards insert_log set_combat_log update_player_card
         set_player_cards tbl_update snd rows next_id].
    change (map ?g ?k) with (g <$> k). rewrite <- list_fmap_compose.
    erewrite list_fmap_ext; [rewrite list_fmap_id; by destruct (player_cards d)|].
    intros i r Hr%list_elem_of_lookup_2. unfold compose. cbn beta.
    destruct (decide (owned_in playerCardId uid sessionId r)) as [Hr1|Hr1].
    + assert (r = pc) as ->.
      { apply (key_inj_on player_card_id (rows (player_cards d)));
          [apply (ok_player_cards d Hok)|done|done|].
        destruct Hr1 as (-> & _). by destruct Hown as (-> & _). }
      rewrite decide_True by done. by destruct pc.
    + by rewrite decide_False.
  - cbn. rewrite !length_app. cbn. lia.
Qed.

Lemma moveCard_and_back_restores_instances_alice :
  let d := Scenario.table_db in
  let d1 := (moveCard 7%nat 1 "alice" 1 "battlefield" "hand" None false d).1 in
  let d2 := (moveCard 7%nat 1 "alice" 1 "hand" "battlefield" (Some 3) true
               d1).1 in
  player_cards d2 = player_cards d
  ∧ users d2 = users d ∧ cards d2 = cards d
  ∧ length (rows (combat_log d2)) = S (S (length (rows (combat_log d)))).
Proof.
  apply (moveCard_and_back_restores_instances 7%nat 1 "alice" 1 "battlefield"
           "hand" None false Scenario.table_db 1
           (mkPlayerCard 1 1 1 1 "battlefield" (Some 3) true)).
  - exact table_db_ok.
  - vm_compute. reflexivity.
  - vm_compute. apply list_elem_of_here.
  - vm_compute. auto.
Defined.

End move_edges.

(** ** The rows a creation writes *)

Section create_effect.

Import Part000.

(** What the INSERT of createCard stores for three of the common
    columns. *)
Lemma card_values_common (cardData : JsObj) :
  let fields :=
    list_to_map (M := JsObj)
      (zip card_columns (bind <$> card_values cardData)) in
  get fields "card_name" = bind (get cardData "card_name")
  ∧ get fields "power_level" = bind (get cardData "power_level")
  ∧ get fields "is_active" = bind (get cardData "is_active").
Proof. cbn zeta. repeat split; reflexivity. Qed.

(** X12. createCard writes three rows whatever session id it is given,
    also one that no game_sessions row carries: a card definition with the
    generated id, which holds the request's card name and power level
    (NULL where the request has none) and, when the request's active flag
    is a boolean, 1 or 0 for it; an instance of it owned by the resolved
    user in that session; and a "Card Created" log row naming session,
    user and card, stamped with the clock of the store, whose description
    quotes the card name as a template literal prints it. game_sessions
    and player_sessions are not touched, and the only emission is
    [server:cardCreated] to the room of that session id. *)
Theorem createCard_writes_three_rows sid userId (cardData : JsObj) d :
  let r := createCard sid userId cardData d in
  let uid := (resolveUser userId d).1 in
  (∃ row,
     rows (cards r.1) = rows (cards d) ++ [row]
     ∧ card_id row = next_id (cards d)
     ∧ get (card_fields row) "card_name" = bind (get cardData "card_name")
     ∧ get (card_fields row) "power_level" = bind (get cardData "power_level")
     ∧ (∀ b, get cardData "is_active" = JBool b →
             get (card_fields row) "is_active" = JNum (if b then 1 else 0)))
  ∧ rows (player_cards r.1)
    = rows (player_cards d)
      ++ [ mkPlayerCard (next_id (player_cards d)) uid (next_id (cards d)) sid
             "CreatedCardStorage" None false ]
  ∧ rows (combat_log r.1)
    = rows (combat_log d)
      ++ [ mkLog (next_id (combat_log d)) sid uid (next_id (cards d))
             "Card Created"
             (userId +:+ " created card " +:+ dquote
                +:+ to_string (get cardData "card_name") +:+ dquote)
             (now d) ]
  ∧ game_sessions r.1 = game_sessions d
  ∧ player_sessions r.1 = player_sessions d
  ∧ ∃ card, r.2 = [mkEmit (ToRoom sid) "server:cardCreated" (PCard card)].
Proof.
  cbn zeta. rewrite createCard_unfold. cbn zeta. cbn [fst snd].
  destruct (resolveUser_frame userId d) as (Hgs & Hc & Hpc & Hlog & Hps & Hnow).
  set (ru := resolveUser userId d) in *.
  split; [|split; [|split; [|split; [|split]]]].
  - destruct (card_values_common cardData) as (Hname & Hpower & Hactive).
    exists (mkCard (next_id (cards d))
              (list_to_map
                 (zip card_columns (bind <$> card_values cardData)))).
    split; [cbn; by rewrite Hc|]. split; [done|]. cbn [card_fields].
    split; [done|]. split; [done|].
    intros b Hb. rewrite Hactive, Hb. by destruct b.
  - cbn. by rewrite Hpc, Hc.
  - cbn. by rewrite Hlog, Hc, Hnow.
  - done.
  - done.
  - by eexists.
Qed.

(** X13. The createCard of src/server/index.js and that of the full
    server leave the same store whenever the request's suit intellect and
    rally modifiers bind the same value under both property names the two
    versions read (as when the request has none of the four properties).
    Their broadcasts then differ at most in [player_card_id] and
    [is_active], which only the full server puts into the payload. *)
Theorem createCard_versions_agree sid userId (cardData : JsObj) d :
  or_else (get cardData "card_intellect_modifier") JNull
  = or_else (get cardData "card_suit_intellect_modifier") JNull →
  or_else (get cardData "card_rally_modifier") JNull
  = or_else (get cardData "card_suit_rally_modifier") JNull →
  (createCard sid userId cardData d).1
  = (ServerIndex.createCard sid userId cardData d).1
  ∧ ∃ card card',
      (createCard sid userId cardData d).2
      = [mkEmit (ToRoom sid) "server:cardCreated" (PCard card)]
      ∧ (ServerIndex.createCard sid userId cardData d).2
        = [mkEmit (ToRoom sid) "server:cardCreated" (PCard card')]
      ∧ ∀ k, k ≠ "player_card_id" → k ≠ "is_active" →
             card !! k = card' !! k.
Proof.
  intros Hi Hr.
  assert (card_values cardData = ServerIndex.card_values cardData) as Hv.
  { unfold card_values, ServerIndex.card_values. by rewrite Hi, Hr. }
  split.
  - unfold createCard, ServerIndex.createCard. rewrite Hv.
    by destruct (resolveUser userId d).
  - rewrite Part000_createCard_emits, ServerIndex_createCard_emits.
    eexists _, _. split; [reflexivity|]. split; [reflexivity|].
    intros k Hk1 Hk2. unfold fullNewCard, ServerIndex.fullNewCard, obj_spread.
    rewrite !lookup_union. f_equal. unfold obj. cbn [list_to_map foldr].
    rewrite !lookup_insert, !lookup_empty. cbn [fst snd].
    repeat case_decide; subst; congruence.
Qed.

Lemma createCard_versions_agree_plain :
  (createCard 1 "alice" Replay.plain_card Scenario.table_db).1
  = (ServerIndex.createCard 1 "alice" Replay.plain_card Scenario.table_db).1
  ∧ ∃ card card',
      (createCard 1 "alice" Replay.plain_card Scenario.table_db).2
      = [mkEmit (ToRoom 1) "server:cardCreated" (PCard card)]
      ∧ (ServerIndex.createCard 1 "alice" Replay.plain_card
           Scenario.table_db).2
        = [mkEmit (ToRoom 1) "server:cardCreated" (PCard card')]
      ∧ ∀ k, k ≠ "player_card_id" → k ≠ "is_active" →
             card !! k = card' !! k.
Proof.
  apply (createCard_versions_agree 1 "alice" Replay.plain_card
           Scenario.table_db).
  - vm_compute. reflexivity.
  - vm_compute. reflexivity.
Defined.

End create_effect.

(** ** The instances of a snapshot *)

Section snapshot_instances.

Import Part000.

Ltac by_computation := apply (bool_decide_unpack _); vm_compute; exact I.

Lemma snapshot_payload_reads (row : JsObj) :
  let card := obj (pick snapshot_card_fields row) in
  get card "card_id" = get row "card_id"
  ∧ get card "player_card_id" = get row "player_card_id"
  ∧ get card "ownerId" = get row "user_id"
  ∧ get card "location" = get row "location"
  ∧ get card "slot_id" = get row "slot_id"
  ∧ get card "is_active" = get row "is_active"
  ∧ get card "card_name" = get row "card_name"
  ∧ get card "power_level" = get row "power_level".
Proof. cbn zeta. repeat split; reflexivity. Qed.

(** What a snapshot entry says of the instance and of its definition. *)
Lemma snapshot_entry_fields pc c :
  dom (card_fields c) = list_to_set card_columns →
  let card := obj (pick snapshot_card_fields (joined_obj pc c)) in
  get card "player_card_id" = JNum (player_card_id pc)
  ∧ get card "card_id" = JNum (card_id c)
  ∧ get card "ownerId" = JNum (pc_user_id pc)
  ∧ get card "location" = JStr (location pc)
  ∧ get card "slot_id" = of_opt_num (slot_id pc)
  ∧ get card "card_name" = get (card_fields c) "card_name"
  ∧ get card "power_level" = get (card_fields c) "power_level"
  ∧ get card "is_active" = get (card_fields c) "is_active".
Proof.
  intros Hdom. cbn zeta.
  destruct (snapshot_payload_reads (joined_obj pc c))
    as (Hc & Hp & Ho & Hl & Hs & Ha & Hn & Hw).
  split; [rewrite Hp, joined_get_other; [done|done|by_computation|done]|].
  split; [by rewrite Hc, joined_get_card_id|].
  split; [rewrite Ho, joined_get_other; [done|done|by_computation|done]|].
  split; [rewrite Hl, joined_get_other; [done|done|by_computation|done]|].
  split; [rewrite Hs, joined_get_other; [done|done|by_computation|done]|].
  split; [rewrite Hn; apply joined_get_column; [done|by_computation]|].
  split; [rewrite Hw; apply joined_get_column; [done|by_computation]|].
  rewrite Ha. apply joined_get_column; [done|by_computation].
Qed.

Lemma join_one_per_instance (P : PlayerCardRow → Prop)
    `{!∀ x, Decision (P x)} d :
  db_ok d →
  Forall2 (λ pc (pcc : PlayerCardRow * CardRow),
             pcc.1 = pc ∧ pcc.2 ∈ rows (cards d)
             ∧ card_id pcc.2 = pc_card_id pc
             ∧ dom (card_fields pcc.2) = list_to_set card_columns)
          (filter P (rows (player_cards d)))
          (select_player_cards_join P d).
Proof.
  intros Hok. unfold select_player_cards_join.
  assert (∀ pc, pc ∈ filter P (rows (player_cards d)) →
                pc ∈ rows (player_cards d)) as Hsub
    by (by intros pc [_ ?]%list_elem_of_filter).
  induction (filter P (rows (player_cards d))) as [|pc l IH]; [constructor|].
  pose proof (ok_present d Hok) as Hpres.
  eapply Forall_forall in Hpres; [|apply Hsub, list_elem_of_here].
  apply Exists_exists in Hpres as (c & Hc & Hcid).
  pose proof (ok_schema d Hok) as Hsch.
  eapply Forall_forall in Hsch; [|exact Hc].
  cbn [mbind list_bind].
  rewrite (filter_unique_key card_id _ _ c); try done.
  - cbn. constructor; [done|]. apply IH.
    intros pc' Hpc'. by apply Hsub, list_elem_of_further.
  - apply (ok_cards d Hok).
  - intros y _ Hy. congruence.
Qed.

(** X14. In a consistent store the snapshot of a session has one entry
    for each of its instances and nothing else; no order of the entries is
    stated, as the query asks for none. An entry carries the instance's
    id, card id, zone and slot, and the name and power level of its card
    definition; its [ownerId] is the numeric id of the owner (the
    broadcasts carry the username instead), and its [is_active] is the
    active flag of the card definition, which hides the instance's own. *)
Theorem gameState_cards_one_per_instance sid sessionName userId d :
  db_ok d →
  ∃ pcs,
  pcs ≡ₚ filter (λ pc, pc_session_id pc = sid) (rows (player_cards d)) ∧
  Forall2 (λ pc card,
             ∃ c, c ∈ rows (cards d) ∧ card_id c = pc_card_id pc
                  ∧ get card "player_card_id" = JNum (player_card_id pc)
                  ∧ get card "card_id" = JNum (pc_card_id pc)
                  ∧ get card "ownerId" = JNum (pc_user_id pc)
                  ∧ get card "location" = JStr (location pc)
                  ∧ get card "slot_id" = of_opt_num (slot_id pc)
                  ∧ get card "card_name" = get (card_fields c) "card_name"
                  ∧ get card "power_level"
                    = get (card_fields c) "power_level"
                  ∧ get card "is_active" = get (card_fields c) "is_active")
          pcs
          (gs_cards (gameState sid sessionName userId d)).
Proof.
  intros Hok.
  exists (filter (λ pc, pc_session_id pc = sid) (rows (player_cards d))).
  split; [done|].
  unfold gameState. cbn [gs_cards].
  apply Forall2_fmap_r.
  eapply Forall2_impl; [by apply join_one_per_instance|].
  intros pc [pc' c] (Heq & Hc & Hcid & Hdom). cbn in Heq, Hc, Hcid, Hdom.
  subst pc'. exists c.
  destruct (snapshot_entry_fields pc c Hdom)
    as (H1 & H2 & H3 & H4 & H5 & H6 & H7 & H8).
  rewrite <- Hcid. lazy beta iota.
  repeat split; first [assumption | reflexivity].
Qed.

Lemma gameState_cards_one_per_instance_table :
  ∃ pcs,
  pcs ≡ₚ filter (λ pc, pc_session_id pc = 1)
                (rows (player_cards Scenario.table_db)) ∧
  Forall2 (λ pc card,
             ∃ c, c ∈ rows (cards Scenario.table_db)
                  ∧ card_id c = pc_card_id pc
                  ∧ get card "player_card_id" = JNum (player_card_id pc)
                  ∧ get card "card_id" = JNum (pc_card_id pc)
                  ∧ get card "ownerId" = JNum (pc_user_id pc)
                  ∧ get card "location" = JStr (location pc)
                  ∧ get card "slot_id" = of_opt_num (slot_id pc)
                  ∧ get card "card_name" = get (card_fields c) "card_name"
                  ∧ get card "power_level"
                    = get (card_fields c) "power_level"
                  ∧ get card "is_active" = get (card_fields c) "is_active")
          pcs
          (gs_cards (gameState 1 "arena1" "bob" Scenario.table_db)).
Proof.
  apply (gameState_cards_one_per_instance 1 "arena1" "bob" Scenario.table_db).
  exact table_db_ok.
Defined.

Lemma createCard_game_sessions sid userId (cardData : JsObj) d :
  game_sessions (createCard sid userId cardData d).1 = game_sessions d.
Proof.
  rewrite createCard_unfold. cbn zeta. cbn.
  by destruct (resolveUser_frame userId d) as (-> & _).
Qed.

(** X15. A card created in a session is in the snapshot of the next join
    of that session: when the session name resolves to the session id the
    creation was sent with, whoever joins next is sent an entry for the
    new instance, with the generated instance and card ids, in
    "CreatedCardStorage" without a slot, and with the name and power level
    the creator supplied (NULL where the request had none). *)
Theorem created_card_in_next_snapshot sock sessionName sid userId joiner
    (cardData : JsObj) rs d s l :
  select_sessions sessionName d = s :: l → session_id s = sid →
  let rc := createCard sid userId cardData d in
  let rj := joinGame sock sessionName joiner (mkWorld rc.1 rs) in
  ∃ gs card,
    head rj.2
    = Some (mkEmit (ToSocket sock) "server:gameState" (PGameState gs))
    ∧ gs_sessionId gs = sid
    ∧ card ∈ gs_cards gs
    ∧ get card "player_card_id" = JNum (next_id (player_cards d))
    ∧ get card "card_id" = JNum (next_id (cards d))
    ∧ get card "location" = JStr "CreatedCardStorage"
    ∧ get card "slot_id" = JNull
    ∧ get card "card_name" = bind (get cardData "card_name")
    ∧ get card "power_level" = bind (get cardData "power_level").
Proof.
  intros Hsel Hsid. cbn zeta. rewrite joinGame_unfold. cbn zeta.
  cbn [fst snd db head].
  set (rc := createCard sid userId cardData d).
  destruct (resolveUser_frame joiner rc.1) as (Hgs & Hcards & Hpcs & _).
  set (ru := resolveUser joiner rc.1) in *.
  assert (select_sessions sessionName ru.2 = s :: l) as Hsel'.
  { unfold select_sessions in *. rewrite Hgs. subst rc.
    by rewrite createCard_game_sessions. }
  rewrite (resolveSession_hit _ _ _ _ _ Hsel'). cbn [fst snd]. rewrite Hsid.
  set (pc := mkPlayerCard (next_id (player_cards d)) (resolveUser userId d).1
               (next_id (cards d)) sid "CreatedCardStorage" None false).
  set (c := mkCard (next_id (cards d))
              (list_to_map (zip card_columns (bind <$> card_values cardData)))).
  assert ((pc, c) ∈ select_player_cards_join
                      (λ pc, pc_session_id pc = sid) ru.2) as Hin.
  { apply select_player_cards_join_elem. rewrite Hpcs, Hcards. subst rc.
    rewrite Part000_createCard_player_cards, Part000_createCard_cards.
    split; [apply elem_of_app; right; apply list_elem_of_here|].
    split; [done|].
    split; [apply elem_of_app; right; apply list_elem_of_here|done]. }
  destruct (snapshot_entry_fields pc c (card_values_schema cardData))
    as (H1 & H2 & _ & H4 & H5 & H6 & H7 & _).
  eexists _, (obj (pick snapshot_card_fields (joined_obj pc c))).
  split; [reflexivity|]. split; [reflexivity|]. split.
  { unfold gameState. cbn [gs_cards]. apply list_elem_of_fmap.
    exists (pc, c). split; [reflexivity|exact Hin]. }
  split; [done|]. split; [done|]. split; [done|]. split; [done|].
  split; [by rewrite H6|by rewrite H7].
Qed.

Lemma created_card_in_next_snapshot_table :
  let rc := createCard 1 "alice" Scenario.fire_bolt Scenario.table_db in
  let rj := joinGame 8%nat "arena1" "bob" (mkWorld rc.1 ∅) in
  ∃ gs card,
    head rj.2
    = Some (mkEmit (ToSocket 8%nat) "server:gameState" (PGameState gs))
    ∧ gs_sessionId gs = 1
    ∧ card ∈ gs_cards gs
    ∧ get card "player_card_id"
      = JNum (next_id (player_cards Scenario.table_db))
    ∧ get card "card_id" = JNum (next_id (cards Scenario.table_db))
    ∧ get card "location" = JStr "CreatedCardStorage"
    ∧ get card "slot_id" = JNull
    ∧ get card "card_name" = bind (get Scenario.fire_bolt "card_name")
    ∧ get card "power_level" = bind (get Scenario.fire_bolt "power_level").
Proof.
  apply (created_card_in_next_snapshot 8%nat "arena1" 1 "alice" "bob"
           Scenario.fire_bolt ∅ Scenario.table_db
           (mkSession 1 1 "arena1") []).
  - vm_compute. reflexivity.
  - reflexivity.
Defined.

End snapshot_instances.

(** ** Joining again, rooms and delivery *)

Section join_rooms.

Import Part000.

Lemma select_users_same_users userId d d' :
  users d' = users d → select_users userId d' = select_users userId d.
Proof. intros H. unfold select_users. by rewrite H. Qed.

Lemma select_sessions_same_sessions sessionName d d' :
  game_sessions d' = game_sessions d →
  select_sessions sessionName d' = select_sessions sessionName d.
Proof. intros H. unfold select_sessions. by rewrite H. Qed.

(** After a resolution the username has a row, and the first one carries
    the resolved id. *)
Lemma resolveUser_again userId d :
  ∃ u l, select_users userId (resolveUser userId d).2 = u :: l
         ∧ user_id u = (resolveUser userId d).1.
Proof.
  destruct (select_users userId d) as [|u l] eqn:Hsel.
  - rewrite (resolveUser_miss _ _ Hsel). cbn [fst snd].
    rewrite select_users_insert, Hsel. by eexists _, _.
  - rewrite (resolveUser_hit _ _ _ _ Hsel). cbn [fst snd]. by eexists _, _.
Qed.

Lemma resolveSession_again sessionName uid d :
  ∃ s l, select_sessions sessionName (resolveSession sessionName uid d).2
         = s :: l
         ∧ session_id s = (resolveSession sessionName uid d).1.
Proof.
  destruct (select_sessions sessionName d) as [|s l] eqn:Hsel.
  - rewrite (resolveSession_miss _ _ _ Hsel). cbn [fst snd].
    rewrite select_sessions_insert, Hsel. by eexists _, _.
  - rewrite (resolveSession_hit _ _ _ _ _ Hsel). cbn [fst snd].
    by eexists _, _.
Qed.

Lemma ensure_player_session_again uid sid d :
  ensure_player_session uid sid (ensure_player_session uid sid d)
  = ensure_player_session uid sid d.
Proof.
  pose proof (ensure_player_session_elem uid sid d) as Hin.
  set (d' := ensure_player_session uid sid d) in *.
  unfold ensure_player_session at 1.
  destruct (filter _ (player_sessions d')) as [|ps l] eqn:Hf; [|done].
  exfalso.
  assert (mkPlayerSession uid sid
            ∈ filter (λ ps, ps_user_id ps = uid ∧ ps_session_id ps = sid)
                     (player_sessions d')) as Hin'
    by (by apply list_elem_of_filter).
  rewrite Hf in Hin'. by apply elem_of_nil in Hin'.
Qed.

(** X16. Joining a session a second time under the same username, on
    the same or on another connection, changes nothing in the store: no
    second user, session or player_sessions row is written. The first
    join leaves a player_sessions row for the resolved user and session. *)
Theorem joinGame_again_leaves_store sock1 sock2 sessionName userId w :
  let r1 := joinGame sock1 sessionName userId w in
  let r2 := joinGame sock2 sessionName userId r1.1 in
  db r2.1 = db r1.1
  ∧ ∃ gs,
      head r1.2
      = Some (mkEmit (ToSocket sock1) "server:gameState" (PGameState gs))
      ∧ mkPlayerSession (resolveUser userId (db w)).1 (gs_sessionId gs)
          ∈ player_sessions (db r1.1).
Proof.
  cbn zeta. rewrite (joinGame_unfold sock1). cbn zeta. cbn [fst snd db head].
  rewrite (joinGame_unfold sock2). cbn zeta. cbn [fst snd db].
  set (ru := resolveUser userId (db w)).
  set (rs := resolveSession sessionName ru.1 ru.2).
  set (d3 := ensure_player_session ru.1 rs.1 rs.2).
  destruct (ensure_player_session_frame ru.1 rs.1 rs.2) as (Hu3 & Hs3).
  fold d3 in Hu3, Hs3.
  destruct (resolveUser_again userId (db w)) as (u & lu & Hsu & Hidu).
  fold ru in Hsu, Hidu.
  assert (select_users userId d3 = u :: lu) as Hsu3.
  { rewrite (select_users_same_users _ ru.2); [done|].
    rewrite Hu3. subst rs. apply resolveSession_users. }
  rewrite (resolveUser_hit _ _ _ _ Hsu3). cbn [fst snd]. rewrite Hidu.
  destruct (resolveSession_again sessionName ru.1 ru.2) as (s & ls & Hss & Hids).
  fold rs in Hss, Hids.
  assert (select_sessions sessionName d3 = s :: ls) as Hss3
    by (by rewrite (select_sessions_same_sessions _ rs.2)).
  rewrite (resolveSession_hit _ _ _ _ _ Hss3). cbn [fst snd]. rewrite Hids.
  split; [apply ensure_player_session_again|].
  eexists. split; [reflexivity|]. cbn [gs_sessionId gameState].
  apply ensure_player_session_elem.
Qed.

(** X17. A join writes to the identity tables only. cards, player_cards,
    the combat log and the clock are as before; users, game_sessions and
    player_sessions keep their rows in place and grow by at most one row
    each; and the memberships of every room but the session's own are as
    before. *)
Theorem joinGame_leaves_game_tables sock sessionName userId w :
  let r := joinGame sock sessionName userId w in
  cards (db r.1) = cards (db w)
  ∧ player_cards (db r.1) = player_cards (db w)
  ∧ combat_log (db r.1) = combat_log (db w)
  ∧ now (db r.1) = now (db w)
  ∧ (∃ lu, rows (users (db r.1)) = rows (users (db w)) ++ lu
           ∧ (length lu ≤ 1)%nat)
  ∧ (∃ ls, rows (game_sessions (db r.1)) = rows (game_sessions (db w)) ++ ls
           ∧ (length ls ≤ 1)%nat)
  ∧ (∃ lp, player_sessions (db r.1) = player_sessions (db w) ++ lp
           ∧ (length lp ≤ 1)%nat)
  ∧ ∃ gs,
      head r.2
      = Some (mkEmit (ToSocket sock) "server:gameState" (PGameState gs))
      ∧ members (gs_sessionId gs) (rooms r.1)
        = {[sock]} ∪ members (gs_sessionId gs) (rooms w)
      ∧ ∀ room, room ≠ gs_sessionId gs →
                members room (rooms r.1) = members room (rooms w).
Proof.
  cbn zeta. rewrite joinGame_unfold. cbn zeta. cbn [fst snd db rooms head].
  set (d := db w).
  assert (∀ uid sid d0,
            cards (ensure_player_session uid sid d0) = cards d0
            ∧ player_cards (ensure_player_session uid sid d0) = player_cards d0
            ∧ combat_log (ensure_player_session uid sid d0) = combat_log d0
            ∧ now (ensure_player_session uid sid d0) = now d0
            ∧ users (ensure_player_session uid sid d0) = users d0
            ∧ game_sessions (ensure_player_session uid sid d0)
              = game_sessions d0
            ∧ ∃ lp, player_sessions (ensure_player_session uid sid d0)
                    = player_sessions d0 ++ lp ∧ (length lp ≤ 1)%nat) as He.
  { intros uid sid d0. unfold ensure_player_session.
    destruct (filter _ _); cbn; split_and!; try done;
      first [ eexists [_]; split; [reflexivity|cbn; lia]
            | exists []; split; [by rewrite app_nil_r|cbn; lia] ]. }
  assert (∀ uid d0,
            cards (resolveSession sessionName uid d0).2 = cards d0
            ∧ player_cards (resolveSession sessionName uid d0).2
              = player_cards d0
            ∧ combat_log (resolveSession sessionName uid d0).2 = combat_log d0
            ∧ now (resolveSession sessionName uid d0).2 = now d0
            ∧ users (resolveSession sessionName uid d0).2 = users d0
            ∧ player_sessions (resolveSession sessionName uid d0).2
              = player_sessions d0
            ∧ ∃ ls, rows (game_sessions (resolveSession sessionName uid d0).2)
                    = rows (game_sessions d0) ++ ls ∧ (length ls ≤ 1)%nat)
    as Hs.
  { intros uid d0. unfold resolveSession.
    destruct (select_sessions sessionName d0); cbn; split_and!; try done;
      first [ eexists [_]; split; [reflexivity|cbn; lia]
            | exists []; split; [by rewrite app_nil_r|cbn; lia] ]. }
  assert (∃ lu, rows (users (resolveUser userId d).2) = rows (users d) ++ lu
                ∧ (length lu ≤ 1)%nat) as (lu & Hlu & Hlen).
  { unfold resolveUser. destruct (select_users userId d); cbn;
      first [ eexists [_]; split; [reflexivity|cbn; lia]
            | exists []; split; [by rewrite app_nil_r|cbn; lia] ]. }
  destruct (resolveUser_frame userId d) as (Hu1 & Hu2 & Hu3 & Hu4 & Hu5 & Hu6).
  set (ru := resolveUser userId d) in *.
  destruct (Hs ru.1 ru.2) as (Hs1 & Hs2 & Hs3 & Hs4 & Hs5 & Hs6 & ls & Hls & Hlsn).
  set (rs := resolveSession sessionName ru.1 ru.2) in *.
  destruct (He ru.1 rs.1 rs.2) as (He1 & He2 & He3 & He4 & He5 & He6 & lp & Hlp & Hlpn).
  split; [congruence|]. split; [congruence|]. split; [congruence|].
  split; [congruence|].
  split; [exists lu; split; [congruence|done]|].
  split; [exists ls; split; [congruence|done]|].
  split; [exists lp; split; [congruence|done]|].
  eexists. split; [reflexivity|]. cbn [gs_sessionId gameState].
  split; [apply members_socket_join|].
  intros room Hne. unfold members, socket_join.
  by rewrite lookup_insert_ne.
Qed.

(** X19. A connection that joins a session and then creates a card with
    the session id of its snapshot is among the recipients of its own
    [server:cardCreated]: the broadcast is addressed to the room of that
    session, whose members are then the joiner and whoever was in the room
    before. *)
Theorem joiner_receives_created_card sock sessionName userId
    (cardData : JsObj) w :
  let rj := joinGame sock sessionName userId w in
  ∃ gs card,
    head rj.2
    = Some (mkEmit (ToSocket sock) "server:gameState" (PGameState gs))
    ∧ (createCard (gs_sessionId gs) userId cardData (db rj.1)).2
      = [ mkEmit (ToRoom (gs_sessionId gs)) "server:cardCreated"
                 (PCard card) ]
    ∧ sock ∈ recipients (rooms rj.1) (ToRoom (gs_sessionId gs))
    ∧ recipients (rooms rj.1) (ToRoom (gs_sessionId gs))
      = {[sock]} ∪ members (gs_sessionId gs) (rooms w).
Proof.
  cbn zeta. rewrite joinGame_unfold. cbn zeta. cbn [fst snd db rooms head].
  eexists _, _. split; [reflexivity|]. cbn [gs_sessionId gameState].
  split; [apply Part000_createCard_emits|].
  cbn [recipients]. rewrite members_socket_join.
  split; [|done]. apply elem_of_union_l. by apply elem_of_singleton.
Qed.

End join_rooms.

(** ** Where emissions go *)

Section emission_targets.

Import Part000.

(** X20. Whatever message a connection sends, an [error] event is only
    ever addressed to that connection, never to a room; a room broadcast
    is only ever addressed to the room named by the session id in the
    request, with the event of that request ([server:cardCreated],
    [server:cardMoved], [server:cardPlayed]); and the only event that
    excludes a connection is the join notice of a join, which excludes the
    joiner. No message is answered with more than two emissions. *)
Theorem handle_emission_targets sock req w e :
  e ∈ (handle sock req w).2 →
  (event e = "error" →
     target e = ToSocket sock ∧ ∃ msg, payload e = PMessage msg)
  ∧ (∀ room, target e = ToRoom room →
       match req with
       | CreateCard sid _ _ => room = sid ∧ event e = "server:cardCreated"
       | MoveCard sid _ _ _ _ _ _ => room = sid ∧ event e = "server:cardMoved"
       | PlayCardAction sid _ _ _ => room = sid ∧ event e = "server:cardPlayed"
       | JoinGame _ _ | Disconnect => False
       end)
  ∧ (∀ room s, target e = ToRoomExcept room s →
       s = sock ∧ event e = "server:playerJoined"
       ∧ ∃ sessionName userId, req = JoinGame sessionName userId)
  ∧ (length (handle sock req w).2 ≤ 2)%nat.
Proof.
  destruct req as [sessionName userId|sid userId cardData
                  |sid userId pcid oldLocation dest slot act
                  |sid userId pcid oldLocation|];
    cbn [handle on_db snd].
  - rewrite joinGame_unfold. cbn zeta. cbn [snd].
    intros [->|[->|[]%elem_of_nil]%elem_of_cons]%elem_of_cons;
      cbn; split_and!; try done; try (intros; discriminate).
    intros room s [= <- <-]. eauto.
  - rewrite Part000_createCard_emits.
    intros ->%list_elem_of_singleton.
    cbn; split_and!; try done; try (intros; discriminate); [|lia].
    by intros room [= <-].
  - destruct (moveCard_store sock sid userId pcid oldLocation dest slot act
                (db w))
      as [[_ [msg ->]]|(uid & _ & [[_ ->]|(cid & descr & card & _ & ->)])];
      intros ->%list_elem_of_singleton;
      cbn; split_and!; try done; try (intros; discriminate); try lia;
      eauto.
    by intros room [= <-].
  - destruct (playCardAction_store sock sid userId pcid oldLocation (db w))
      as [[_ [msg ->]]|(uid & _ & [[_ ->]|(cid & descr & card & _ & ->)])];
      intros ->%list_elem_of_singleton;
      cbn; split_and!; try done; try (intros; discriminate); try lia;
      eauto.
    by intros room [= <-].
  - by intros ?%elem_of_nil.
Qed.

Lemma handle_emission_targets_bob :
  let e := emit_error 8%nat
             "Failed to move card (card not found or permission denied)." in
  (event e = "error" →
     target e = ToSocket 8%nat ∧ ∃ msg, payload e = PMessage msg)
  ∧ (∀ room, target e = ToRoom room →
       room = 1 ∧ event e = "server:cardMoved")
  ∧ (∀ room s, target e = ToRoomExcept room s →
       s = 8%nat ∧ event e = "server:playerJoined"
       ∧ ∃ sessionName userId,
           MoveCard 1 "bob" 1 "battlefield" "hand" None false
           = JoinGame sessionName userId)
  ∧ (length (handle 8%nat
               (MoveCard 1 "bob" 1 "battlefield" "hand" None false)
               Scenario.table_world).2 ≤ 2)%nat.
Proof.
  apply (handle_emission_targets 8%nat
           (MoveCard 1 "bob" 1 "battlefield" "hand" None false)
           Scenario.table_world).
  vm_compute. apply list_elem_of_here.
Defined.

(** X21. In a consistent store, a username that has joined is known to
    moveCard and playCardAction under the id the join resolved it to:
    whatever such a request fails on afterwards, it is not the
    "User not authenticated" refusal. *)
Theorem joined_user_passes_user_check sock sessionName userId w sock'
    sessionId playerCardId oldLocation destinationLocation destinationSlotId
    isActive :
  db_ok (db w) →
  let w1 := (joinGame sock sessionName userId w).1 in
  lookupUser userId (db w1) = Some (resolveUser userId (db w)).1
  ∧ (moveCard sock' sessionId userId playerCardId oldLocation
              destinationLocation destinationSlotId isActive (db w1)).2
    ≠ [emit_error sock' "User not authenticated for card move."]
  ∧ (playCardAction sock' sessionId userId playerCardId oldLocation
                    (db w1)).2
    ≠ [emit_error sock' "User not authenticated for playing card."].
Proof.
  intros Hok. cbn zeta. rewrite joinGame_unfold. cbn zeta. cbn [fst db].
  pose proof (db_ok_resolveUser userId (db w) Hok) as Hok1.
  destruct (resolveUser_again userId (db w)) as (u & l & Hsel & Hid).
  set (ru := resolveUser userId (db w)) in *.
  set (rs := resolveSession sessionName ru.1 ru.2).
  set (d3 := ensure_player_session ru.1 rs.1 rs.2).
  assert (select_users userId d3 = u :: l) as Hsel3.
  { rewrite (select_users_same_users _ ru.2); [done|]. subst d3.
    destruct (ensure_player_session_frame ru.1 rs.1 rs.2) as (-> & _).
    subst rs. apply resolveSession_users. }
  assert (0 < user_id u) as Hpos.
  { destruct (ok_positive _ Hok1) as [_ Hall].
    eapply Forall_forall in Hall; [exact Hall|].
    assert (u ∈ select_users userId ru.2) as Hin
      by (rewrite Hsel; apply list_elem_of_here).
    unfold select_users in Hin.
    by apply list_elem_of_filter in Hin as [_ ?]. }
  assert (lookupUser userId d3 = Some ru.1) as Hlook.
  { unfold lookupUser. rewrite Hsel3, <- Hid.
    by destruct (Z.eqb_spec (user_id u) 0); [lia|]. }
  split; [done|]. split.
  - unfold moveCard. rewrite Hlook.
    destruct (update_player_card _ _ _ _ _ _ d3) as [[|n] d4]; cbn [snd].
    + intros [=].
    + unfold refetch_log_broadcast.
      destruct (select_player_cards_join _ d4) as [|[pc c] k]; intros [=].
  - unfold playCardAction. rewrite Hlook.
    destruct (update_player_card _ _ _ _ _ _ d3) as [[|n] d4]; cbn [snd].
    + intros [=].
    + unfold refetch_log_broadcast.
      destruct (select_player_cards_join _ d4) as [|[pc c] k]; intros [=].
Qed.

Lemma joined_user_passes_user_check_carol :
  let w1 := (joinGame 9%nat "arena1" "carol" Scenario.table_world).1 in
  lookupUser "carol" (db w1)
  = Some (resolveUser "carol" (db Scenario.table_world)).1
  ∧ (moveCard 9%nat 1 "carol" 1 "battlefield" "hand" None false (db w1)).2
    ≠ [emit_error 9%nat "User not authenticated for card move."]
  ∧ (playCardAction 9%nat 1 "carol" 1 "battlefield" (db w1)).2
    ≠ [emit_error 9%nat "User not authenticated for playing card."].
Proof.
  apply (joined_user_passes_user_check 9%nat "arena1" "carol"
           Scenario.table_world 9%nat 1 1 "battlefield" "hand" None false).
  exact table_db_ok.
Defined.

End emission_targets.
